(** * hono-hyperdx-poc: trace-aware logger and tracing middleware

    A shallow embedding of [src/lib/logger.ts] (class [AppLogger], the pino
    [mixin], [getLogger]) and of the tracing middleware of [src/index.ts].

    - JavaScript objects used as maps (the object returned by the mixin, the
      object handed to pino) are [gmap string JsVal];
    - the mutable module state ([globalLogger], the [AppLogger] instances,
      [process.env], the calls made on the external providers) is an explicit
      [World], threaded through a state-and-exception monad;
    - a JavaScript [throw] is the [Throw] completion of that monad. *)

From Stdlib Require Import ZArith Ascii String.
From stdpp Require Import base option list strings gmap.

Local Open Scope string_scope.
Local Open Scope Z_scope.

(** ** JavaScript values and completions *)

Module Js.

(** The values that end up inside a log record. *)
#[warnings="-register-all"] Inductive JsVal : Type :=
| VUndefined
| VBool (b : bool)
| VNum (z : Z)
| VStr (s : string)
| VObj (fields : list (string * JsVal)).

(** What a [throw] can carry.  An [Error] object has an identity (its
    reference) and a [message]; primitives have no [message] property;
    reading a property of [null]/[undefined] raises a fresh [TypeError]. *)
Inductive Thrown : Type :=
| ErrorObj (ref : nat) (message : string)
| TypeError (message : string)
| Primitive (v : JsVal)
| Nullish.

Inductive Completion (A : Type) : Type :=
| Normal (a : A)
| Throw (e : Thrown).
Arguments Normal {A} a.
Arguments Throw {A} e.

(** [x.message] for a caught value [x]. *)
Definition message_of (e : Thrown) : Completion (option string) :=
  match e with
  | ErrorObj _ m => Normal (Some m)
  | TypeError m => Normal (Some m)
  | Primitive _ => Normal None
  | Nullish =>
      Throw (TypeError "Cannot read properties of undefined (reading 'message')")
  end.

(** [o.p] where [o] may be [undefined]. *)
Definition member {A B : Type} (p : string) (o : option A) (get : A -> B)
  : Completion B :=
  match o with
  | Some a => Normal (get a)
  | None =>
      Throw (TypeError ("Cannot read properties of undefined (reading '" +:+ p +:+ "')"))
  end.

(** Truthiness of an optional string ([undefined] and [""] are falsy) and
    of an optional object ([undefined] is falsy). *)
Definition truthy_string (o : option string) : bool :=
  match o with
  | Some s => negb (String.eqb s "")
  | None => false
  end.

Definition truthy_object {A : Type} (o : option A) : bool :=
  match o with Some _ => true | None => false end.

(** [a ?? b] *)
Definition nullish_or {A : Type} (a : option A) (b : A) : A :=
  match a with Some x => x | None => b end.

(** *** [Number.prototype.toString(16)] on integers *)

Definition hex_digit (d : Z) : ascii :=
  match d with
  | 0 => "0" | 1 => "1" | 2 => "2" | 3 => "3" | 4 => "4"
  | 5 => "5" | 6 => "6" | 7 => "7" | 8 => "8" | 9 => "9"
  | 10 => "a" | 11 => "b" | 12 => "c" | 13 => "d" | 14 => "e"
  | _ => "f"
  end%char.

(** Digits of [n >= 0], most significant first, pushed in front of [acc].
    One unit of fuel is spent per digit. *)
Fixpoint to_radix16 (fuel : nat) (n : Z) (acc : string) : string :=
  match fuel with
  | O => acc
  | S fuel' =>
      let acc' := String (hex_digit (n mod 16)) acc in
      if n / 16 =? 0 then acc' else to_radix16 fuel' (n / 16) acc'
  end.

Definition digit_fuel (n : Z) : nat := S (Z.to_nat (Z.log2 n)).

(** [Number.MAX_SAFE_INTEGER], [2^53 - 1]: up to it, in absolute value, every
    integer is a number of its own. *)
Definition MAX_SAFE_INTEGER : Z := 9007199254740991.

Definition is_safe_integer (n : Z) : bool :=
  (- MAX_SAFE_INTEGER <=? n) && (n <=? MAX_SAFE_INTEGER).

(** [x.toString(16)] for a number [x] whose value is the integer [n].  A
    number is a double: the digits are exact on the safe integers, the range
    this function models.  Beyond it not every integer is a number and the
    language leaves the digits to the implementation; the function yields the
    empty string there, which is no numeral, and no property below speaks
    about that range. *)
Definition Number_toString16 (n : Z) : string :=
  if negb (is_safe_integer n) then ""
  else if n <? 0
  then String "-"%char (to_radix16 (digit_fuel (- n)) (- n) "")
  else to_radix16 (digit_fuel n) n "".

(** Reading a lowercase hexadecimal numeral back. *)
Definition digit_value (c : ascii) : option Z :=
  let k := Z.of_N (N_of_ascii c) in
  if (48 <=? k) && (k <=? 57) then Some (k - 48)
  else if (97 <=? k) && (k <=? 102) then Some (k - 87)
  else None.

Fixpoint parse_hex_from (a : Z) (s : string) : option Z :=
  match s with
  | EmptyString => Some a
  | String c s' =>
      match digit_value c with
      | Some d => parse_hex_from (a * 16 + d) s'
      | None => None
      end
  end.

Definition parse_hex (s : string) : option Z :=
  match s with
  | EmptyString => None
  | _ => parse_hex_from 0 s
  end.

Definition is_lower_hex (s : string) : bool :=
  forallb (fun c => bool_decide (is_Some (digit_value c))) (list_ascii_of_string s).

End Js.

Export Js.

(** ** The tracing provider, as this program uses it *)

Module Otel.

(** [SpanContext]: the identifiers the mixin copies.  [traceFlags] is read
    through [?? 0], so it may be absent; it is a number with an integer value
    (a byte in the tracing provider). *)
Record SpanContext : Type := {
  traceId : string;
  spanId : string;
  traceFlags : option Z }.

Inductive SpanCall : Type :=
| SetStatus (code : Z) (message : option string)
| RecordException (exception : Thrown)
| End.

(** A span object.  [spanContext()] is guarded by [if (!sc)] in the mixin,
    so it is optional here; [span_calls] lists the calls received, oldest
    first. *)
Record Span : Type := {
  span_name : string;
  spanContext : option SpanContext;
  span_calls : list SpanCall }.

(** [context.active()]: the ambient context holds at most one active span. *)
Definition Context : Type := option Span.

(** [trace.getSpan(ctx)] *)
Definition trace_getSpan (ctx : Context) : option Span := ctx.

(** A tracer, reduced to the identifiers it gives to its [n]-th span. *)
Record Tracer : Type := {
  tracer_name : string;
  tracer_ids : nat -> SpanContext }.

End Otel.

Export Otel.

(** ** Program state *)

Inductive Level : Type := LInfo | LWarn | LError | LDebug | LTrace.

Definition level_name (l : Level) : string :=
  match l with
  | LInfo => "info" | LWarn => "warn" | LError => "error"
  | LDebug => "debug" | LTrace => "trace"
  end.

(** The numeric values pino gives to the levels. *)
Definition level_value (l : Level) : Z :=
  match l with
  | LTrace => 10 | LDebug => 20 | LInfo => 30 | LWarn => 40 | LError => 50
  end.

(** The threshold of a pino logger created without a [level] option, as the
    one of [initialize] is. *)
Definition pino_default_level : Level := LInfo.

(** A level at or above the threshold; the methods of the levels below it
    are no-ops. *)
Definition level_enabled (l : Level) : bool :=
  level_value pino_default_level <=? level_value l.

Record Env : Type := {
  HYPERDX_API_KEY : option string;
  HYPERDX_SERVICE : option string }.

(** One entry of [pinoTargets]. *)
Record PinoTarget : Type := {
  target : string;
  options : list (string * JsVal) }.

(** A record as it reaches the sinks: level, message and the merged object. *)
Record LogRecord : Type := {
  rec_level : Level;
  rec_msg : string;
  rec_fields : gmap string JsVal }.

(** The logger built by [pino.pino({ mixin }, pino.transport({ targets }))]. *)
Record PinoLogger : Type := {
  pino_mixin : Context -> Completion (gmap string JsVal);
  pino_targets : list PinoTarget }.

(** Calls made on the external providers, oldest first. *)
Inductive ProviderCall : Type :=
| HyperDX_init (apiKey service : JsVal)
| Pino_transport (targets : list PinoTarget)
| Pino_write (sinks : list PinoTarget) (r : LogRecord).

(** An instance of [class AppLogger]. *)
Record AppLoggerObj : Type := {
  isInitialized : bool;
  pinoLogger : option PinoLogger }.

(** [loggers] and [spans] are heaps: a reference is an index.  [active] is
    the span of the ambient context, [fresh_ref] the next object identity. *)
Record World : Type := {
  env : Env;
  loggers : list AppLoggerObj;
  globalLogger : option nat;
  spans : list Span;
  active : option nat;
  fresh_ref : nat;
  calls : list ProviderCall }.

Definition set_env (e : Env) (w : World) : World :=
  {| env := e; loggers := loggers w; globalLogger := globalLogger w;
     spans := spans w; active := active w; fresh_ref := fresh_ref w;
     calls := calls w |}.

Definition set_loggers (ls : list AppLoggerObj) (w : World) : World :=
  {| env := env w; loggers := ls; globalLogger := globalLogger w;
     spans := spans w; active := active w; fresh_ref := fresh_ref w;
     calls := calls w |}.

Definition set_globalLogger (g : option nat) (w : World) : World :=
  {| env := env w; loggers := loggers w; globalLogger := g;
     spans := spans w; active := active w; fresh_ref := fresh_ref w;
     calls := calls w |}.

Definition set_spans (ss : list Span) (w : World) : World :=
  {| env := env w; loggers := loggers w; globalLogger := globalLogger w;
     spans := ss; active := active w; fresh_ref := fresh_ref w;
     calls := calls w |}.

Definition set_active (a : option nat) (w : World) : World :=
  {| env := env w; loggers := loggers w; globalLogger := globalLogger w;
     spans := spans w; active := a; fresh_ref := fresh_ref w;
     calls := calls w |}.

Definition set_fresh_ref (n : nat) (w : World) : World :=
  {| env := env w; loggers := loggers w; globalLogger := globalLogger w;
     spans := spans w; active := active w; fresh_ref := n;
     calls := calls w |}.

Definition add_call (c : ProviderCall) (w : World) : World :=
  {| env := env w; loggers := loggers w; globalLogger := globalLogger w;
     spans := spans w; active := active w; fresh_ref := fresh_ref w;
     calls := calls w ++ [c] |}.

(** The state of a process that has loaded nothing yet. *)
Definition initial_world (e : Env) : World :=
  {| env := e; loggers := []; globalLogger := None; spans := [];
     active := None; fresh_ref := O; calls := [] |}.

(** [context.active()] *)
Definition context_active (w : World) : Context :=
  match active w with
  | Some r => spans w !! r
  | None => None
  end.

(** ** The state-and-exception monad *)

Definition M (A : Type) : Type := World -> Completion A * World.

Definition ret {A : Type} (a : A) : M A := fun w => (Normal a, w).

Definition throw {A : Type} (e : Thrown) : M A := fun w => (Throw e, w).

Definition bind {A B : Type} (m : M A) (k : A -> M B) : M B :=
  fun w =>
    match m w with
    | (Normal a, w') => k a w'
    | (Throw e, w') => (Throw e, w')
    end.

Definition lift {A : Type} (c : Completion A) : M A := fun w => (c, w).

Definition gets {A : Type} (f : World -> A) : M A := fun w => (Normal (f w), w).

Definition modify (f : World -> World) : M unit := fun w => (Normal tt, f w).

Declare Scope js_scope.
Delimit Scope js_scope with js.
Notation "'let*' x ':=' m 'in' k" := (bind m (fun x => k))
  (at level 10, x name, m at level 100, k at level 200) : js_scope.
Notation "'exec' m 'in' k" := (bind m (fun _ => k))
  (at level 10, m at level 100, k at level 200) : js_scope.
Local Open Scope js_scope.

(** [try { body } catch (e) { handler e } finally { finalizer }] *)
Definition try_catch_finally {A : Type}
    (body : M A) (handler : Thrown -> M A) (finalizer : M unit) : M A :=
  fun w =>
    let '(r1, w1) := body w in
    let '(r2, w2) :=
      match r1 with
      | Normal a => (Normal a, w1)
      | Throw e => handler e w1
      end in
    match finalizer w2 with
    | (Normal _, w3) => (r2, w3)
    | (Throw e', w3) => (Throw e', w3)
    end.

(** [new Error(message)] *)
Definition new_Error (message : string) : M Thrown :=
  fun w => (Normal (ErrorObj (fresh_ref w) message), set_fresh_ref (S (fresh_ref w)) w).

(** ** [src/lib/logger.ts] *)

(** Sequencing of completions, for code that touches no state. *)
Definition and_then {A B : Type} (c : Completion A) (k : A -> Completion B)
  : Completion B :=
  match c with
  | Normal a => k a
  | Throw e => Throw e
  end.

(** The [mixin] option given to pino: called on every log, it reads the
    ambient context and returns the fields to add. *)
Definition mixin (ctx : Context) : Completion (gmap string JsVal) :=
  let span := trace_getSpan ctx in
  if negb (truthy_object span) then Normal ∅ else
  and_then (member "spanContext" span spanContext) (fun sc =>
  if negb (truthy_object sc) then Normal ∅ else
  and_then (member "traceId" sc traceId) (fun trace_id =>
  and_then (member "spanId" sc spanId) (fun span_id =>
  and_then (member "traceFlags" sc traceFlags) (fun flags =>
  Normal {[ "trace_id" := VStr trace_id;
            "span_id" := VStr span_id;
            "trace_flags" := VStr ("0" +:+ Number_toString16 (nullish_or flags 0)) ]})))).

(** The logging provider.  [pino_log pl level obj msg] is what
    [pl[level](obj, msg)] does as far as this program can see.  The logger is
    created without a [level] option, so below pino's default threshold
    (debug and trace) the method is a no-op: the mixin is not called and
    nothing is written.  From the threshold up, pino calls the mixin, merges
    its result under the fields of [obj] ([Object.assign(mixinResult, obj)])
    and writes the record to every target of the transport.  Timestamps and
    the formatting done by the targets are left out. *)
Definition pino_log (pl : PinoLogger) (level : Level)
    (obj : gmap string JsVal) (msg : string) : M unit :=
  if negb (level_enabled level) then ret tt else
  let* ctx := gets context_active in
  let* extra := lift (pino_mixin pl ctx) in
  modify (add_call (Pino_write (pino_targets pl)
            {| rec_level := level; rec_msg := msg; rec_fields := obj ∪ extra |})).

(** [options?: { data?: Record<string, any>; tag?: string }] *)
Record LogOptions : Type := {
  data : option (list (string * JsVal));
  tag : option string }.

Definition pretty_target : PinoTarget :=
  {| target := "pino-pretty";
     options := [ ("colorize", VBool true);
                  ("translateTime", VStr "HH:MM:ss");
                  ("ignore", VStr "pid,hostname");
                  ("customColors", VStr "info:blue,warn:yellow,error:red") ] |}.

(** The value of a [process.env] entry as a JavaScript value. *)
Definition env_value (o : option string) : JsVal :=
  match o with
  | Some s => VStr s
  | None => VUndefined
  end.

Definition hyperdx_target (apiKey service : option string) : PinoTarget :=
  {| target := "@hyperdx/node-logger/build/src/pino";
     options := [ ("apiKey", env_value apiKey); ("service", env_value service) ] |}.

Module AppLogger.

(** [new AppLogger()]: [isInitialized = false], [pinoLogger] unassigned. *)
Definition new : M nat :=
  fun w =>
    (Normal (length (loggers w)),
     set_loggers (loggers w ++ [ {| isInitialized := false; pinoLogger := None |} ]) w).

(** Reading [this]; a reference outside the heap does not occur in the
    program and is reported as a [TypeError]. *)
Definition deref (this : nat) : M AppLoggerObj :=
  let* ls := gets loggers in
  lift (member "isInitialized" (ls !! this) id).

Definition assign (this : nat) (f : AppLoggerObj -> AppLoggerObj) : M unit :=
  modify (fun w => set_loggers (alter f this (loggers w)) w).

Definition initialize (this : nat) : M unit :=
  let* self := deref this in
  if isInitialized self then ret tt else
  let* apiKey := gets (fun w => HYPERDX_API_KEY (env w)) in
  let* service := gets (fun w => HYPERDX_SERVICE (env w)) in
  if negb (truthy_string apiKey) || negb (truthy_string service) then
    let* err := new_Error "HYPERDX_API_KEY and HYPERDX_SERVICE must be set" in
    throw err
  else
  exec modify (add_call (HyperDX_init (env_value apiKey) (env_value service))) in
  let pinoTargets := [ pretty_target ] in
  let pinoTargets :=
    if truthy_string apiKey
    then (pinoTargets ++ [ hyperdx_target apiKey service ])%list
    else pinoTargets in
  exec modify (add_call (Pino_transport pinoTargets)) in
  exec assign this (fun o =>
         {| isInitialized := isInitialized o;
            pinoLogger := Some {| pino_mixin := mixin; pino_targets := pinoTargets |} |}) in
  assign this (fun o => {| isInitialized := true; pinoLogger := pinoLogger o |}).

Definition createLog (this : nat) (level : Level) (message : string)
    (opts : option LogOptions) : M unit :=
  let data := nullish_or (opts ≫= data) [] in
  let tag := nullish_or (opts ≫= tag) "" in
  let* self := deref this in
  let* pl := lift (member (level_name level) (pinoLogger self) id) in
  pino_log pl level {[ "data" := VObj data; "tag" := VStr tag ]} message.

Definition info (this : nat) (message : string) (opts : option LogOptions) : M unit :=
  createLog this LInfo message opts.

Definition warn (this : nat) (message : string) (opts : option LogOptions) : M unit :=
  createLog this LWarn message opts.

Definition error (this : nat) (message : string) (opts : option LogOptions) : M unit :=
  createLog this LError message opts.

(** The methods the class declares. *)
Definition methods : list string :=
  [ "initialize"; "createLog"; "info"; "warn"; "error" ].

(** The call [logger.<level>(message, options)]: the class has a method of
    that name for three of the levels; for the other two the property is
    undefined and the call raises. *)
Definition call_level_method (level : Level) (this : nat) (message : string)
    (opts : option LogOptions) : M unit :=
  match level with
  | LInfo => info this message opts
  | LWarn => warn this message opts
  | LError => error this message opts
  | LDebug | LTrace =>
      throw (TypeError ("logger." +:+ level_name level +:+ " is not a function"))
  end.

End AppLogger.

(** [let globalLogger: AppLogger | null = null; export function getLogger()] *)
Definition getLogger : M nat :=
  let* g := gets globalLogger in
  match g with
  | Some l => ret l
  | None =>
      let* l := AppLogger.new in
      exec modify (set_globalLogger (Some l)) in
      exec AppLogger.initialize l in
      ret l
  end.

(** [export function getTracer(name = "hono-hyperdx-poc")], over the
    provider's [trace.getTracer]. *)
Definition getTracer (trace_getTracer : string -> Tracer) (name : option string) : Tracer :=
  trace_getTracer (nullish_or name "hono-hyperdx-poc").

(** ** [src/index.ts] *)

(** [tracer.startActiveSpan(name, fn)]: the provider creates a span, makes it
    the active one while [fn] runs and restores the previous context. *)
Definition startActiveSpan {A : Type} (tr : Tracer) (name : string)
    (fn : nat -> M A) : M A :=
  fun w =>
    let r := length (spans w) in
    let sp := {| span_name := name;
                 spanContext := Some (tracer_ids tr r);
                 span_calls := [] |} in
    let '(res, w') := fn r (set_active (Some r) (set_spans (spans w ++ [sp]) w)) in
    (res, set_active (active w) w').

Definition span_call (span : nat) (c : SpanCall) : M unit :=
  modify (fun w =>
    set_spans (alter (fun s => {| span_name := span_name s;
                                  spanContext := spanContext s;
                                  span_calls := span_calls s ++ [c] |})
                     span (spans w)) w).

Record Request : Type := { method : string; path : string }.

(** The middleware registered with [app.use("*", ...)]; [next] is the rest of
    the handler chain. *)
Definition tracing_middleware {R : Type} (tracer : Tracer) (req : Request)
    (next : M R) : M R :=
  startActiveSpan tracer (method req +:+ " " +:+ path req) (fun span =>
    try_catch_finally
      (let* result := next in
       exec span_call span (SetStatus 1 None) in
       ret result)
      (fun error =>
         exec span_call span (RecordException error) in
         let* message := lift (message_of error) in
         exec span_call span (SetStatus 2 message) in
         throw error)
      (span_call span End)).

(** The web framework.  A value thrown by a handler is an [Error] for
    [instanceof] when it is an error object. *)
Definition instance_of_Error (e : Thrown) : bool :=
  match e with
  | ErrorObj _ _ | TypeError _ => true
  | Primitive _ | Nullish => false
  end.

(** Hono's error handler when the application sets none with [app.onError],
    as [src/index.ts] does: it answers with this text (and status 500). *)
Definition hono_errorHandler (err : Thrown) : M string :=
  ret "Internal Server Error".

(** What [next()] is for a middleware in front of [handler], by Hono's
    [compose]: an [Error] thrown by the handler is caught there and handed to
    the error handler, whose response [next()] resolves with; any other
    thrown value passes through. *)
Definition hono_next {R : Type} (onError : Thrown -> M R) (handler : M R) : M R :=
  fun w =>
    match handler w with
    | (Normal r, w') => (Normal r, w')
    | (Throw e, w') =>
        if instance_of_Error e then onError e w' else (Throw e, w')
    end.

(** The handler of [app.get("/", ...)], for the exported [logger]. *)
Definition root_handler (logger : nat) : M string :=
  exec AppLogger.info logger "info log test 1!"
         (Some {| data := Some [ ("message", VStr "Hello Hono 1!") ];
                  tag := Some "hello-hono" |}) in
  exec AppLogger.error logger "error log test 1!"
         (Some {| data := Some [ ("message", VStr "Error Hono 1!") ];
                  tag := Some "error-hono" |}) in
  ret "Hello Hono!".

(** ** Reachable states *)

(** What can happen to the state between two observations: the program calls
    one of its own operations, the environment is edited, or the tracing
    provider changes the ambient context (to any span, well formed or not). *)
Inductive Op : Type :=
| OpGetLogger
| OpNew
| OpInitialize (this : nat)
| OpCreateLog (this : nat) (level : Level) (message : string) (opts : option LogOptions)
| OpSetEnv (e : Env)
| OpSetContext (ss : list Span) (a : option nat).

Definition run_op (op : Op) (w : World) : World :=
  match op with
  | OpGetLogger => snd (getLogger w)
  | OpNew => snd (AppLogger.new w)
  | OpInitialize this => snd (AppLogger.initialize this w)
  | OpCreateLog this level message opts =>
      snd (AppLogger.createLog this level message opts w)
  | OpSetEnv e => set_env e w
  | OpSetContext ss a => set_active a (set_spans ss w)
  end.

Inductive reachable : World -> Prop :=
| reachable_initial (e : Env) : reachable (initial_world e)
| reachable_step (op : Op) (w : World) : reachable w -> reachable (run_op op w).

(** The sink list a construction ends with: console first, remote second. *)
Definition two_sinks (ts : list PinoTarget) : Prop :=
  exists k s : string,
    k <> "" /\ s <> "" /\ ts = [ pretty_target; hyperdx_target (Some k) (Some s) ].

(** The state of one [AppLogger] between two calls. *)
Definition logger_ok (o : AppLoggerObj) : Prop :=
  match pinoLogger o with
  | None => isInitialized o = false
  | Some pl =>
      isInitialized o = true /\ pino_mixin pl = mixin /\ two_sinks (pino_targets pl)
  end.

Definition world_ok (w : World) : Prop :=
  Forall logger_ok (loggers w) /\
  (forall ts, In (Pino_transport ts) (calls w) -> two_sinks ts).

(** ** Vocabulary of the specification *)

(** The field the mixin contributes under [key] in context [ctx], if any. *)
Definition contributed (ctx : Context) (key : string) : option JsVal :=
  match mixin ctx with
  | Normal fields => fields !! key
  | Throw _ => None
  end.

(** A context whose active span carries the flags [v]. *)
Definition span_with_flags (name trace_id span_id : string) (v : option Z) : Span :=
  {| span_name := name;
     spanContext := Some {| traceId := trace_id; spanId := span_id; traceFlags := v |};
     span_calls := [] |}.

(** [s] is the lowercase hexadecimal numeral of [v]: lowercase hexadecimal
    digits only, value [v], and no leading zero except for the numeral [0]. *)
Definition hex_numeral_of (v : Z) (s : string) : Prop :=
  is_lower_hex s = true /\
  parse_hex s = Some v /\
  (s = "0" \/ exists c rest, s = String c rest /\ c <> "0"%char).

(** The two-character rendering of a byte as the specification words it: the
    natural numeral, with a zero in front only when that numeral is a single
    character. *)
Definition spec_two_char_hex (v : Z) : string :=
  let natural := Number_toString16 v in
  if Nat.eqb (String.length natural) 1 then "0" +:+ natural else natural.

(** A record carries the trace-context fields. *)
Definition carries_trace_fields (r : LogRecord) : Prop :=
  is_Some (rec_fields r !! "trace_id") /\
  is_Some (rec_fields r !! "span_id") /\
  is_Some (rec_fields r !! "trace_flags").

Definition carries_no_trace_field (r : LogRecord) : Prop :=
  rec_fields r !! "trace_id" = None /\
  rec_fields r !! "span_id" = None /\
  rec_fields r !! "trace_flags" = None.

(** The object [createLog] hands to pino. *)
Definition log_object (opts : option LogOptions) : gmap string JsVal :=
  {[ "data" := VObj (nullish_or (opts ≫= data) []);
     "tag" := VStr (nullish_or (opts ≫= tag) "") ]}.

(** [getLogger()] called [n] times in a row. *)
Fixpoint getLogger_times (n : nat) (w : World) : list (Completion nat) * World :=
  match n with
  | O => ([], w)
  | S n' =>
      let '(r, w1) := getLogger w in
      let '(rs, w2) := getLogger_times n' w1 in
      (r :: rs, w2)
  end.

(** A value of [process.env] that [!value] rejects. *)
Definition missing_or_empty (o : option string) : Prop := o = None \/ o = Some "".

Definition config_error_message : string :=
  "HYPERDX_API_KEY and HYPERDX_SERVICE must be set".

(** The state in which the middleware runs the rest of the chain: the new
    span is on the heap and active. *)
Definition span_started (tracer : Tracer) (req : Request) (w : World) : World :=
  set_active (Some (length (spans w)))
    (set_spans (spans w ++ [ {| span_name := method req +:+ " " +:+ path req;
                                spanContext := Some (tracer_ids tracer (length (spans w)));
                                span_calls := [] |} ]) w).

Definition with_calls (s : Span) (cs : list SpanCall) : Span :=
  {| span_name := span_name s; spanContext := spanContext s;
     span_calls := span_calls s ++ cs |}.

(** The object an [AppLogger] is once [initialize] has run with sinks [ts]. *)
Definition initialized_with (ts : list PinoTarget) : AppLoggerObj :=
  {| isInitialized := true;
     pinoLogger := Some {| pino_mixin := mixin; pino_targets := ts |} |}.

(** Both credentials pass the test [!apiKey || !service]. *)
Definition configured (w : World) : bool :=
  truthy_string (HYPERDX_API_KEY (env w)) && truthy_string (HYPERDX_SERVICE (env w)).

(** The state a successful first [initialize] of [this] leaves behind. *)
Definition after_initialize (this : nat) (w : World) : World :=
  let ts := [ pretty_target;
              hyperdx_target (HYPERDX_API_KEY (env w)) (HYPERDX_SERVICE (env w)) ] in
  set_loggers (<[this := initialized_with ts]> (loggers w))
    (add_call (Pino_transport ts)
       (add_call (HyperDX_init (env_value (HYPERDX_API_KEY (env w)))
                               (env_value (HYPERDX_SERVICE (env w)))) w)).

(** The facts about a flags byte that a program can check: the numeral after
    the added [0] is lowercase hexadecimal; up to 15 the result is the
    two-character rendering, above it is three characters long and differs
    from it. *)
Definition flags_shape (v : Z) : bool :=
  let s := "0" +:+ Number_toString16 v in
  is_lower_hex s &&
  (if v <=? 15
   then String.eqb s (spec_two_char_hex v) && Nat.eqb (String.length s) 2
   else negb (String.eqb s (spec_two_char_hex v)) && Nat.eqb (String.length s) 3).

(** The [data] and [tag] a call passes on, worded from the options bundle. *)
Definition data_or_default (opts : option LogOptions) : list (string * JsVal) :=
  match opts with
  | Some {| data := Some d |} => d
  | _ => []
  end.

Definition tag_or_default (opts : option LogOptions) : string :=
  match opts with
  | Some {| tag := Some t |} => t
  | _ => ""
  end.

(** ** Sample states and inputs *)

Definition sample_env : Env :=
  {| HYPERDX_API_KEY := Some "key"; HYPERDX_SERVICE := Some "hono-hyperdx-poc" |}.

(** The state once the logger module is loaded
    ([export const logger = getLogger()]). *)
Definition loaded_world : World := run_op OpGetLogger (initial_world sample_env).

(** An active span whose [spanContext()] yields nothing. *)
Definition malformed_span : Span :=
  {| span_name := "GET /"; spanContext := None; span_calls := [] |}.

Definition malformed_world : World :=
  run_op (OpSetContext [ malformed_span ] (Some 0%nat)) loaded_world.

Definition traced_world : World :=
  run_op (OpSetContext [ span_with_flags "GET /" "20d03309" "1fba4d5d" (Some 1) ]
            (Some 0%nat)) loaded_world.

Definition sample_tracer : Tracer :=
  {| tracer_name := "hono-hyperdx-poc";
     tracer_ids := fun _ =>
       {| traceId := "20d03309"; spanId := "1fba4d5d"; traceFlags := Some 1 |} |}.

Definition sample_request : Request := {| method := "GET"; path := "/" |}.

(** ** Vocabulary of the further properties *)

(** The state the middleware leaves: the request's span has received the
    calls [cs] on top of what the handler chain left in [w1], and the ambient
    context is the one of [w], the state before the request. *)
Definition middleware_exit (w w1 : World) (cs : list SpanCall) : World :=
  set_active (active w)
    (set_spans (alter (fun s => with_calls s cs) (length (spans w)) (spans w1)) w1).

(** The calls the middleware makes on the span, by outcome of the chain. *)
Definition middleware_calls {R : Type} (outcome : Completion R) : list SpanCall :=
  match outcome with
  | Normal _ => [ SetStatus 1 None; End ]
  | Throw e =>
      match message_of e with
      | Normal m => [ RecordException e; SetStatus 2 m; End ]
      | Throw _ => [ RecordException e; End ]
      end
  end.

(** What the caller of the middleware gets, by outcome of the chain. *)
Definition middleware_outcome {R : Type} (outcome : Completion R) : Completion R :=
  match outcome with
  | Normal r => Normal r
  | Throw e =>
      match message_of e with
      | Normal _ => Throw e
      | Throw t => Throw t
      end
  end.

(** Several operations in a row. *)
Fixpoint run_ops (ops : list Op) (w : World) : World :=
  match ops with
  | [] => w
  | op :: ops' => run_ops ops' (run_op op w)
  end.

Fixpoint count_initialized (ls : list AppLoggerObj) : nat :=
  match ls with
  | [] => O
  | o :: ls' => ((if isInitialized o then 1 else 0) + count_initialized ls')%nat
  end.

Fixpoint count_HyperDX_init (cs : list ProviderCall) : nat :=
  match cs with
  | [] => O
  | HyperDX_init _ _ :: cs' => S (count_HyperDX_init cs')
  | _ :: cs' => count_HyperDX_init cs'
  end.

Fixpoint count_Pino_transport (cs : list ProviderCall) : nat :=
  match cs with
  | [] => O
  | Pino_transport _ :: cs' => S (count_Pino_transport cs')
  | _ :: cs' => count_Pino_transport cs'
  end.

(** The fields the mixin adds for a span context. *)
Definition span_fields (sc : SpanContext) : gmap string JsVal :=
  {[ "trace_id" := VStr (traceId sc);
     "span_id" := VStr (spanId sc);
     "trace_flags" := VStr ("0" +:+ Number_toString16 (nullish_or (traceFlags sc) 0)) ]}.

(** The two records of the handler of [GET /], over the mixin's fields. *)
Definition root_info_record (extra : gmap string JsVal) : LogRecord :=
  {| rec_level := LInfo;
     rec_msg := "info log test 1!";
     rec_fields :=
       {[ "data" := VObj [ ("message", VStr "Hello Hono 1!") ];
          "tag" := VStr "hello-hono" ]} ∪ extra |}.

Definition root_error_record (extra : gmap string JsVal) : LogRecord :=
  {| rec_level := LError;
     rec_msg := "error log test 1!";
     rec_fields :=
       {[ "data" := VObj [ ("message", VStr "Error Hono 1!") ];
          "tag" := VStr "error-hono" ]} ∪ extra |}.

(** The [TypeError] of a log call on a logger without pino logger. *)
Definition no_pino_logger_error (level : Level) : Thrown :=
  TypeError ("Cannot read properties of undefined (reading '"
             +:+ level_name level +:+ "')").

(** The operations of a program that reaches the logger through
    [getLogger] (or the exported [logger]) only: it never runs
    [new AppLogger()] or [initialize] itself. *)
Definition through_getLogger (op : Op) : bool :=
  match op with
  | OpNew | OpInitialize _ => false
  | _ => true
  end.

(** The top-level keys of a record. *)
Definition record_keys (r : LogRecord) : gset string := dom (rec_fields r).

(** * Properties *)

(** ** Hexadecimal numerals *)

Section Hex.

Lemma digit_value_hex_digit (d : Z) :
  0 <= d < 16 -> digit_value (hex_digit d) = Some d.
Proof.
  intros Hd.
  assert (Hcases : d = 0 \/ d = 1 \/ d = 2 \/ d = 3 \/ d = 4 \/ d = 5 \/ d = 6 \/
                   d = 7 \/ d = 8 \/ d = 9 \/ d = 10 \/ d = 11 \/ d = 12 \/
                   d = 13 \/ d = 14 \/ d = 15) by lia.
  repeat (destruct Hcases as [-> | Hcases]; [reflexivity |]).
  subst d. reflexivity.
Qed.

Lemma hex_digit_zero (d : Z) :
  0 <= d < 16 -> hex_digit d = "0"%char -> d = 0.
Proof.
  intros Hd Hz.
  pose proof (digit_value_hex_digit d Hd) as Hv.
  rewrite Hz in Hv. vm_compute in Hv. congruence.
Qed.

Lemma string_app_cons (c : ascii) (s t : string) :
  String c s +:+ t = String c (s +:+ t).
Proof. reflexivity. Qed.

Lemma string_app_assoc (s t u : string) :
  (s +:+ t) +:+ u = s +:+ (t +:+ u).
Proof.
  induction s as [| c s IH]; [reflexivity |].
  rewrite !string_app_cons, IH. reflexivity.
Qed.

Lemma to_radix16_acc (fuel : nat) :
  forall n acc, to_radix16 fuel n acc = to_radix16 fuel n "" +:+ acc.
Proof.
  induction fuel as [| fuel IH]; intros n acc; simpl; [reflexivity |].
  destruct (n / 16 =? 0); [reflexivity |].
  rewrite (IH _ (String _ acc)), (IH _ (String _ "")).
  rewrite string_app_assoc. reflexivity.
Qed.

Lemma parse_hex_from_app (s t : string) :
  forall a, parse_hex_from a (s +:+ t) =
            match parse_hex_from a s with
            | Some b => parse_hex_from b t
            | None => None
            end.
Proof.
  induction s as [| c s IH]; intros a; [reflexivity |].
  rewrite string_app_cons. simpl.
  destruct (digit_value c); [apply IH | reflexivity].
Qed.

Lemma is_lower_hex_app (s t : string) :
  is_lower_hex (s +:+ t) = is_lower_hex s && is_lower_hex t.
Proof.
  unfold is_lower_hex.
  induction s as [| c s IH]; [reflexivity |].
  rewrite string_app_cons. simpl. rewrite IH. apply andb_assoc.
Qed.

Lemma to_radix16_nonempty (fuel : nat) (n : Z) :
  (0 < fuel)%nat -> to_radix16 fuel n "" <> "".
Proof.
  destruct fuel as [| fuel]; [lia |]. intros _. simpl.
  destruct (n / 16 =? 0); [discriminate |].
  rewrite to_radix16_acc.
  destruct (to_radix16 fuel (n / 16) ""); [| rewrite string_app_cons]; discriminate.
Qed.

(** With one unit of fuel per digit, the digits produced read back as [n],
    are lowercase hexadecimal, and start with a nonzero digit unless
    [n = 0]. *)
Lemma to_radix16_spec (fuel : nat) :
  forall n, 0 <= n < 16 ^ Z.of_nat fuel -> (0 < fuel)%nat ->
    parse_hex_from 0 (to_radix16 fuel n "") = Some n /\
    is_lower_hex (to_radix16 fuel n "") = true /\
    (n = 0 \/ exists c rest, to_radix16 fuel n "" = String c rest /\ c <> "0"%char).
Proof.
  induction fuel as [| fuel IH]; intros n Hn Hfuel; [lia |].
  assert (Hmod : 0 <= n mod 16 < 16) by (apply Z.mod_pos_bound; lia).
  simpl to_radix16.
  destruct (n / 16 =? 0) eqn:Hq.
  - apply Z.eqb_eq in Hq.
    assert (Hsmall : n mod 16 = n) by (rewrite (Z.div_mod n 16) at 2; lia).
    rewrite Hsmall in *.
    split; [| split].
    + simpl. rewrite (digit_value_hex_digit n Hmod). reflexivity.
    + unfold is_lower_hex. simpl. rewrite (digit_value_hex_digit n Hmod). reflexivity.
    + destruct (decide (n = 0)) as [-> | Hnz]; [left; reflexivity |].
      right. eexists _, _. split; [reflexivity |].
      intros Hz. apply Hnz. exact (hex_digit_zero n Hmod Hz).
  - apply Z.eqb_neq in Hq.
    assert (Hpow : 16 ^ Z.of_nat (S fuel) = 16 * 16 ^ Z.of_nat fuel)
      by (rewrite Nat2Z.inj_succ, Z.pow_succ_r; lia).
    assert (Hdiv : 0 <= n / 16 < 16 ^ Z.of_nat fuel).
    { split; [apply Z.div_pos; lia |]. apply Z.div_lt_upper_bound; lia. }
    assert (Hfuel' : (0 < fuel)%nat).
    { destruct fuel; [| lia]. simpl in Hdiv. lia. }
    destruct (IH (n / 16) Hdiv Hfuel') as (Hparse & Hhex & Hlead).
    rewrite to_radix16_acc.
    split; [| split].
    + rewrite parse_hex_from_app, Hparse. simpl.
      rewrite (digit_value_hex_digit _ Hmod). f_equal.
      rewrite (Z.div_mod n 16) at 3; lia.
    + rewrite is_lower_hex_app, Hhex. unfold is_lower_hex. simpl.
      rewrite (digit_value_hex_digit _ Hmod). reflexivity.
    + right. destruct Hlead as [Hz | (c & rest & Heq & Hc)]; [lia |].
      rewrite Heq, string_app_cons. eauto.
Qed.

Lemma digit_fuel_enough (n : Z) :
  0 <= n -> n < 16 ^ Z.of_nat (digit_fuel n).
Proof.
  intros Hn. unfold digit_fuel.
  rewrite Nat2Z.inj_succ, Z2Nat.id by apply Z.log2_nonneg.
  destruct (decide (n = 0)) as [-> | Hnz]; [reflexivity |].
  pose proof (Z.log2_spec n ltac:(lia)) as [_ Hlt].
  eapply Z.lt_le_trans; [exact Hlt |].
  apply Z.pow_le_mono_l. pose proof (Z.log2_nonneg n). lia.
Qed.

(** [toString(16)] of a non-negative safe integer is its hexadecimal
    numeral. *)
Lemma Number_toString16_numeral (n : Z) :
  0 <= n <= MAX_SAFE_INTEGER -> hex_numeral_of n (Number_toString16 n).
Proof.
  intros [Hn Hmax]. unfold Number_toString16, hex_numeral_of.
  assert (Hsafe : is_safe_integer n = true).
  { unfold is_safe_integer. apply andb_true_iff.
    split; apply Z.leb_le; [unfold MAX_SAFE_INTEGER in *; lia | exact Hmax]. }
  rewrite Hsafe. cbn [negb].
  destruct (n <? 0) eqn:Hneg; [apply Z.ltb_lt in Hneg; lia |].
  assert (Hfuel : (0 < digit_fuel n)%nat) by (unfold digit_fuel; lia).
  destruct (to_radix16_spec (digit_fuel n) n
              (conj Hn (digit_fuel_enough n Hn)) Hfuel) as (Hparse & Hhex & Hlead).
  split; [exact Hhex | split].
  - unfold parse_hex.
    destruct (to_radix16 (digit_fuel n) n "") eqn:Hs; [| exact Hparse].
    exfalso. exact (to_radix16_nonempty _ _ Hfuel Hs).
  - destruct Hlead as [-> | Hlead]; [left; reflexivity | right; exact Hlead].
Qed.

(** A property of bytes that a program can check holds of every byte as
    soon as it holds of the 256 values. *)
Lemma byte_cases (P : Z -> bool) :
  forallb P (map Z.of_nat (seq 0 256)) = true ->
  forall v, 0 <= v <= 255 -> P v = true.
Proof.
  intros Hall v Hv.
  rewrite forallb_forall in Hall. apply Hall.
  rewrite <- (Z2Nat.id v) by lia.
  apply in_map, in_seq. lia.
Qed.

Example toString16_samples :
  Number_toString16 0 = "0" /\ Number_toString16 1 = "1" /\
  Number_toString16 15 = "f" /\ Number_toString16 16 = "10" /\
  Number_toString16 255 = "ff" /\ Number_toString16 4096 = "1000" /\
  Number_toString16 (-26) = "-1a".
Proof. repeat split; reflexivity. Qed.

Example spec_two_char_hex_samples :
  spec_two_char_hex 0 = "00" /\ spec_two_char_hex 1 = "01" /\
  spec_two_char_hex 16 = "10" /\ spec_two_char_hex 255 = "ff".
Proof. repeat split; reflexivity. Qed.

End Hex.

(** ** The mixin *)

Section Mixin.

Lemma mixin_no_span : mixin None = Normal ∅.
Proof. reflexivity. Qed.

Lemma mixin_no_context (sp : Span) :
  spanContext sp = None -> mixin (Some sp) = Normal ∅.
Proof. intros H. unfold mixin. simpl. rewrite H. reflexivity. Qed.

Lemma mixin_active (sp : Span) (sc : SpanContext) :
  spanContext sp = Some sc ->
  mixin (Some sp) =
    Normal {[ "trace_id" := VStr (traceId sc);
              "span_id" := VStr (spanId sc);
              "trace_flags" :=
                VStr ("0" +:+ Number_toString16 (nullish_or (traceFlags sc) 0)) ]}.
Proof. intros H. unfold mixin. simpl. rewrite H. reflexivity. Qed.

End Mixin.

(** ** Runs of the logger operations *)

Section LoggerRuns.

Lemma truthy_string_true (o : option string) :
  truthy_string o = true <-> exists s, o = Some s /\ s <> "".
Proof.
  destruct o as [s |]; simpl.
  - rewrite negb_true_iff, String.eqb_neq. split; [eauto |].
    intros (s' & [= <-] & Hs). exact Hs.
  - split; [discriminate | intros (s & [=] & _)].
Qed.

Lemma truthy_string_false (o : option string) :
  truthy_string o = false <-> missing_or_empty o.
Proof.
  unfold missing_or_empty. destruct o as [s |]; simpl.
  - rewrite negb_false_iff, String.eqb_eq. split.
    + intros ->. right. reflexivity.
    + intros [[=] | [= ->]]. reflexivity.
  - split; [left; reflexivity | reflexivity].
Qed.

(** What [initialize] does, case by case. *)
Lemma initialize_run (this : nat) (w : World) :
  AppLogger.initialize this w =
    match loggers w !! this with
    | None =>
        (Throw (TypeError
           "Cannot read properties of undefined (reading 'isInitialized')"), w)
    | Some o =>
        if isInitialized o then (Normal tt, w)
        else if configured w then (Normal tt, after_initialize this w)
        else (Throw (ErrorObj (fresh_ref w) config_error_message),
              set_fresh_ref (S (fresh_ref w)) w)
    end.
Proof.
  unfold AppLogger.initialize, AppLogger.deref, bind, gets, lift, configured.
  simpl. destruct (loggers w !! this) as [o |] eqn:Hl; simpl; [| reflexivity].
  destruct (isInitialized o) eqn:Hi; [reflexivity |].
  destruct (truthy_string (HYPERDX_API_KEY (env w))) eqn:Hk; simpl; [| reflexivity].
  destruct (truthy_string (HYPERDX_SERVICE (env w))) eqn:Hs; simpl; [| reflexivity].
  unfold after_initialize, AppLogger.assign, modify, set_loggers, add_call. simpl.
  do 2 f_equal.
  apply list_eq. intros i.
  destruct (decide (i = this)) as [-> | Hne].
  - rewrite !list_lookup_alter_eq, list_lookup_insert_eq
      by (eapply lookup_lt_Some; eauto).
    rewrite Hl. reflexivity.
  - rewrite !list_lookup_alter_ne, list_lookup_insert_ne by congruence. reflexivity.
Qed.

(** What [createLog] does on a logger whose pino logger is [pl]. *)
Lemma createLog_run (this : nat) (level : Level) (message : string)
    (opts : option LogOptions) (w : World) (o : AppLoggerObj) (pl : PinoLogger) :
  loggers w !! this = Some o ->
  pinoLogger o = Some pl ->
  AppLogger.createLog this level message opts w =
    if level_enabled level then
      match pino_mixin pl (context_active w) with
      | Normal extra =>
          (Normal tt,
           add_call (Pino_write (pino_targets pl)
                       {| rec_level := level; rec_msg := message;
                          rec_fields := log_object opts ∪ extra |}) w)
      | Throw e => (Throw e, w)
      end
    else (Normal tt, w).
Proof.
  intros Hl Hp.
  unfold AppLogger.createLog, AppLogger.deref, pino_log, bind, gets, lift, modify.
  simpl. rewrite Hl. simpl. rewrite Hp. simpl.
  destruct (level_enabled level); [| reflexivity]. simpl.
  destruct (pino_mixin pl (context_active w)); reflexivity.
Qed.

Lemma createLog_loggers (this : nat) (level : Level) (message : string)
    (opts : option LogOptions) (w : World) :
  let w' := snd (AppLogger.createLog this level message opts w) in
  loggers w' = loggers w /\
  forall ts, In (Pino_transport ts) (calls w') -> In (Pino_transport ts) (calls w).
Proof.
  unfold AppLogger.createLog, AppLogger.deref, pino_log, bind, gets, lift, modify.
  simpl. destruct (loggers w !! this) as [o |]; simpl; [| auto].
  destruct (pinoLogger o) as [pl |]; simpl; [| auto].
  destruct (level_enabled level); simpl; [| auto].
  destruct (pino_mixin pl (context_active w)); simpl; [| auto].
  split; [reflexivity |].
  intros ts [Hin | [Heq | []]]%in_app_or; [exact Hin | discriminate].
Qed.

Lemma getLogger_run (w : World) :
  getLogger w =
    match globalLogger w with
    | Some l => (Normal l, w)
    | None =>
        let l := length (loggers w) in
        let r := AppLogger.initialize l
                   (set_globalLogger (Some l) (snd (AppLogger.new w))) in
        (match fst r with Normal _ => Normal l | Throw e => Throw e end, snd r)
    end.
Proof.
  unfold getLogger, bind, gets, modify, ret. simpl.
  destruct (globalLogger w); [reflexivity |].
  destruct (AppLogger.initialize _ _) as [[] w']; reflexivity.
Qed.

Lemma initialize_globalLogger (this : nat) (w : World) :
  globalLogger (snd (AppLogger.initialize this w)) = globalLogger w.
Proof.
  rewrite initialize_run.
  destruct (loggers w !! this) as [o |]; [| reflexivity].
  destruct (isInitialized o); [reflexivity |].
  destruct (configured w); reflexivity.
Qed.

Lemma two_sinks_configured (w : World) :
  configured w = true ->
  two_sinks [ pretty_target;
              hyperdx_target (HYPERDX_API_KEY (env w)) (HYPERDX_SERVICE (env w)) ].
Proof.
  unfold configured. rewrite andb_true_iff, !truthy_string_true.
  intros [(k & -> & Hk) (s & -> & Hs)]. exists k, s. auto.
Qed.

Lemma new_ok (w : World) : world_ok w -> world_ok (snd (AppLogger.new w)).
Proof.
  intros [Hl Hc]. split; [| exact Hc]. simpl.
  apply Forall_app. split; [exact Hl |].
  constructor; [reflexivity | constructor].
Qed.

Lemma initialize_ok (this : nat) (w : World) :
  world_ok w -> world_ok (snd (AppLogger.initialize this w)).
Proof.
  intros [Hl Hc]. rewrite initialize_run.
  destruct (loggers w !! this) as [o |] eqn:Ho; [| split; assumption].
  destruct (isInitialized o); [split; assumption |].
  destruct (configured w) eqn:Hcfg; [| split; assumption].
  pose proof (two_sinks_configured w Hcfg) as Hts.
  split; simpl.
  - apply Forall_insert; [exact Hl |]. repeat split. exact Hts.
  - intros ts Hin.
    apply in_app_or in Hin as [Hin | [[= <-] | []]]; [| exact Hts].
    apply in_app_or in Hin as [Hin | [[=] | []]]. auto.
Qed.

Lemma run_op_ok (op : Op) (w : World) : world_ok w -> world_ok (run_op op w).
Proof.
  intros Hok. destruct op; simpl.
  - rewrite getLogger_run. destruct (globalLogger w); [exact Hok |].
    apply initialize_ok. apply (new_ok w Hok).
  - apply new_ok, Hok.
  - apply initialize_ok, Hok.
  - destruct Hok as [Hl Hc].
    destruct (createLog_loggers this level message opts w) as [Heq Hsub].
    split; [rewrite Heq; exact Hl | auto].
  - exact Hok.
  - exact Hok.
Qed.

(** Every reachable state satisfies the invariant. *)
Lemma reachable_ok (w : World) : reachable w -> world_ok w.
Proof.
  induction 1 as [e | op w _ IH].
  - split; [constructor | intros ts []].
  - apply run_op_ok, IH.
Qed.

(** In a reachable state an initialized logger has its pino logger, built
    with the mixin and the two sinks. *)
Lemma reachable_initialized (w : World) (this : nat) (o : AppLoggerObj) :
  reachable w -> loggers w !! this = Some o -> isInitialized o = true ->
  exists pl, pinoLogger o = Some pl /\ pino_mixin pl = mixin /\
             two_sinks (pino_targets pl).
Proof.
  intros Hr Hl Hi.
  destruct (reachable_ok w Hr) as [Hall _].
  rewrite Forall_lookup in Hall. specialize (Hall this o Hl).
  unfold logger_ok in Hall. destruct (pinoLogger o) as [pl |].
  - exists pl. tauto.
  - congruence.
Qed.

End LoggerRuns.

(** ** Claims about the fields the mixin contributes *)

Section TraceFlags.

Lemma contributed_trace_flags (sp : Span) (sc : SpanContext) :
  spanContext sp = Some sc ->
  contributed (Some sp) "trace_flags" =
    Some (VStr ("0" +:+ Number_toString16 (nullish_or (traceFlags sc) 0))).
Proof.
  intros Hsc. unfold contributed. rewrite (mixin_active sp sc Hsc). reflexivity.
Qed.

Lemma flags_shape_bytes (v : Z) : 0 <= v <= 255 -> flags_shape v = true.
Proof. apply byte_cases. vm_compute. reflexivity. Qed.

End TraceFlags.

(** C3.  For every trace-flags byte [v] of the active span, the rendered
    [trace_flags] is the character [0] followed by the lowercase hexadecimal
    numeral of [v], without padding to a fixed width: [0] gives ["00"], [1]
    gives ["01"] and [255] gives the three characters ["0ff"]. *)
Theorem trace_flags_zero_then_hex (sp : Span) (sc : SpanContext) (v : Z)
    (Hbyte : 0 <= v <= 255)
    (Hsc : spanContext sp = Some sc)
    (Hflags : traceFlags sc = Some v) :
  exists h : string,
    hex_numeral_of v h /\
    contributed (Some sp) "trace_flags" = Some (VStr ("0" +:+ h)) /\
    (v = 0 -> "0" +:+ h = "00") /\
    (v = 1 -> "0" +:+ h = "01") /\
    (v = 255 -> "0" +:+ h = "0ff" /\ String.length ("0" +:+ h) = 3%nat).
Proof.
  exists (Number_toString16 v).
  split; [apply Number_toString16_numeral; unfold MAX_SAFE_INTEGER; lia |].
  split; [rewrite (contributed_trace_flags sp sc Hsc), Hflags; reflexivity |].
  split; [intros ->; reflexivity |].
  split; [intros ->; reflexivity |].
  intros ->. split; reflexivity.
Qed.

Lemma trace_flags_zero_then_hex_witness :
  exists h : string,
    hex_numeral_of 255 h /\
    contributed (Some (span_with_flags "GET /" "20d03309" "1fba4d5d" (Some 255)))
      "trace_flags" = Some (VStr ("0" +:+ h)) /\
    (255 = 0 -> "0" +:+ h = "00") /\
    (255 = 1 -> "0" +:+ h = "01") /\
    (255 = 255 -> "0" +:+ h = "0ff" /\ String.length ("0" +:+ h) = 3%nat).
Proof.
  apply (trace_flags_zero_then_hex
           (span_with_flags "GET /" "20d03309" "1fba4d5d" (Some 255))
           {| traceId := "20d03309"; spanId := "1fba4d5d"; traceFlags := Some 255 |}
           255).
  - lia.
  - reflexivity.
  - reflexivity.
Defined.

(** C2, as stated, fails: for the flags byte [255] the contributed field is
    ["0ff"], three characters, while the two-character rendering is ["ff"]. *)
Lemma trace_flags_two_chars_counterexample :
  let ctx := Some (span_with_flags "GET /" "20d03309" "1fba4d5d" (Some 255)) in
  contributed ctx "trace_flags" = Some (VStr "0ff") /\
  String.length "0ff" = 3%nat /\
  spec_two_char_hex 255 = "ff" /\
  contributed ctx "trace_flags" <> Some (VStr (spec_two_char_hex 255)).
Proof. repeat split. vm_compute. discriminate. Qed.

(** C2, amended.  While a span is active the contributed [trace_flags] is the
    character [0] followed by the lowercase hexadecimal numeral of the flags
    byte [v]; it consists of lowercase hexadecimal digits; for [v] from 0 to
    15 it is the two-character rendering of the byte, and for [v] from 16 to
    255 it has three characters and is not that rendering. *)
Theorem trace_flags_two_chars_below_16 (sp : Span) (sc : SpanContext) (v : Z)
    (Hbyte : 0 <= v <= 255)
    (Hsc : spanContext sp = Some sc)
    (Hflags : traceFlags sc = Some v) :
  exists s : string,
    contributed (Some sp) "trace_flags" = Some (VStr s) /\
    s = "0" +:+ Number_toString16 v /\
    is_lower_hex s = true /\
    (v <= 15 -> s = spec_two_char_hex v /\ String.length s = 2%nat) /\
    (16 <= v -> s <> spec_two_char_hex v /\ String.length s = 3%nat).
Proof.
  exists ("0" +:+ Number_toString16 v).
  split; [rewrite (contributed_trace_flags sp sc Hsc), Hflags; reflexivity |].
  split; [reflexivity |].
  pose proof (flags_shape_bytes v Hbyte) as Hshape.
  unfold flags_shape in Hshape. cbv zeta in Hshape.
  apply andb_true_iff in Hshape as [Hhex Hrest].
  split; [exact Hhex |].
  destruct (v <=? 15) eqn:Hle.
  - apply Z.leb_le in Hle. apply andb_true_iff in Hrest as [Heq Hlen].
    apply String.eqb_eq in Heq. apply Nat.eqb_eq in Hlen.
    split; [auto | lia].
  - apply Z.leb_gt in Hle. apply andb_true_iff in Hrest as [Hne Hlen].
    apply negb_true_iff, String.eqb_neq in Hne. apply Nat.eqb_eq in Hlen.
    split; [lia | auto].
Qed.

Lemma trace_flags_two_chars_below_16_witness :
  exists s : string,
    contributed (Some (span_with_flags "GET /" "20d03309" "1fba4d5d" (Some 1)))
      "trace_flags" = Some (VStr s) /\
    s = "0" +:+ Number_toString16 1 /\
    is_lower_hex s = true /\
    (1 <= 15 -> s = spec_two_char_hex 1 /\ String.length s = 2%nat) /\
    (16 <= 1 -> s <> spec_two_char_hex 1 /\ String.length s = 3%nat).
Proof.
  apply (trace_flags_two_chars_below_16
           (span_with_flags "GET /" "20d03309" "1fba4d5d" (Some 1))
           {| traceId := "20d03309"; spanId := "1fba4d5d"; traceFlags := Some 1 |}
           1).
  - lia.
  - reflexivity.
  - reflexivity.
Defined.

(** ** Claims about emitted records *)

Section Records.

(** A log call on an initialized logger of a reachable state, at a level the
    threshold lets through, hands exactly one record to the sinks: the log
    object merged over the mixin's fields. *)
Lemma createLog_emits (w : World) (this : nat) (o : AppLoggerObj)
    (level : Level) (message : string) (opts : option LogOptions) :
  reachable w -> loggers w !! this = Some o -> isInitialized o = true ->
  level_enabled level = true ->
  exists (pl : PinoLogger) (extra : gmap string JsVal),
    pinoLogger o = Some pl /\
    two_sinks (pino_targets pl) /\
    mixin (context_active w) = Normal extra /\
    AppLogger.createLog this level message opts w =
      (Normal tt,
       add_call (Pino_write (pino_targets pl)
                   {| rec_level := level; rec_msg := message;
                      rec_fields := log_object opts ∪ extra |}) w).
Proof.
  intros Hr Hl Hi Hen.
  destruct (reachable_initialized w this o Hr Hl Hi) as (pl & Hpl & Hmix & Hts).
  assert (Hex : exists extra, mixin (context_active w) = Normal extra).
  { destruct (context_active w) as [sp |]; [| eexists; apply mixin_no_span].
    destruct (spanContext sp) as [sc |] eqn:Hsc.
    - eexists. apply (mixin_active sp sc Hsc).
    - eexists. apply (mixin_no_context sp Hsc). }
  destruct Hex as [extra Hextra].
  exists pl, extra. repeat split; try assumption.
  rewrite (createLog_run this level message opts w o pl Hl Hpl), Hen, Hmix, Hextra.
  reflexivity.
Qed.

(** Below the threshold the call returns and nothing is written. *)
Lemma createLog_dropped (w : World) (this : nat) (o : AppLoggerObj)
    (level : Level) (message : string) (opts : option LogOptions) :
  reachable w -> loggers w !! this = Some o -> isInitialized o = true ->
  level_enabled level = false ->
  AppLogger.createLog this level message opts w = (Normal tt, w).
Proof.
  intros Hr Hl Hi Hen.
  destruct (reachable_initialized w this o Hr Hl Hi) as (pl & Hpl & _ & _).
  rewrite (createLog_run this level message opts w o pl Hl Hpl), Hen.
  reflexivity.
Qed.

End Records.

(** C1, as stated, fails: in [malformed_world] a span is active, yet the
    record emitted by a log call carries none of the trace-context fields. *)
Lemma fields_iff_span_active_counterexample :
  is_Some (context_active malformed_world) /\
  exists sinks r,
    AppLogger.createLog 0 LInfo "info log test 1!" None malformed_world =
      (Normal tt, add_call (Pino_write sinks r) malformed_world) /\
    carries_no_trace_field r /\
    ~ (carries_trace_fields r <-> is_Some (context_active malformed_world)).
Proof.
  split; [eexists; reflexivity |].
  eexists _, _. split; [reflexivity |].
  split; [repeat split |].
  intros [_ Himp].
  assert (Hs : is_Some (context_active malformed_world)) by (eexists; reflexivity).
  destruct (Himp Hs) as [[x Hx] _]. discriminate Hx.
Qed.

(** C1, amended.  For every log call on the initialized logger, the emitted
    record carries the trace-context fields if and only if a span is active
    and its span context is present: with trace id [T] and span id [S] the
    record has [trace_id = T], [span_id = S] (and the rendered flags), copied
    from that context; when no span is active, or the active span has no span
    context, the record has none of [trace_id], [span_id], [trace_flags].
    A call at info, warn or error emits exactly one record; a call at debug
    or trace is below the logger's threshold and emits none. *)
Theorem record_carries_active_span_context (w : World) (this : nat)
    (o : AppLoggerObj) (level : Level) (message : string)
    (opts : option LogOptions)
    (Hreach : reachable w)
    (Hthis : loggers w !! this = Some o)
    (Hinit : isInitialized o = true) :
  if level_enabled level then
    exists sinks r,
      AppLogger.createLog this level message opts w =
        (Normal tt, add_call (Pino_write sinks r) w) /\
      rec_level r = level /\ rec_msg r = message /\
      match context_active w ≫= spanContext with
      | Some sc =>
          rec_fields r !! "trace_id" = Some (VStr (traceId sc)) /\
          rec_fields r !! "span_id" = Some (VStr (spanId sc)) /\
          rec_fields r !! "trace_flags" =
            Some (VStr ("0" +:+ Number_toString16 (nullish_or (traceFlags sc) 0)))
      | None => carries_no_trace_field r
      end /\
      (carries_trace_fields r <->
       exists sp sc, context_active w = Some sp /\ spanContext sp = Some sc)
  else AppLogger.createLog this level message opts w = (Normal tt, w).
Proof.
  destruct (level_enabled level) eqn:Henabled;
    [| exact (createLog_dropped w this o level message opts Hreach Hthis Hinit Henabled)].
  destruct (createLog_emits w this o level message opts Hreach Hthis Hinit Henabled)
    as (pl & extra & _ & _ & Hextra & Hrun).
  eexists _, _. split; [exact Hrun |]. simpl.
  split; [reflexivity | split; [reflexivity |]].
  destruct (context_active w) as [sp |] eqn:Hctx; simpl.
  - destruct (spanContext sp) as [sc |] eqn:Hsc.
    + rewrite (mixin_active sp sc Hsc) in Hextra. injection Hextra as <-.
      split; [repeat split |].
      split; [intros _; eauto |].
      intros _. repeat split; eexists; reflexivity.
    + rewrite (mixin_no_context sp Hsc) in Hextra. injection Hextra as <-.
      split; [repeat split |].
      split.
      * intros [[x Hx] _]. discriminate Hx.
      * intros (sp' & sc' & [= <-] & Hsc'). congruence.
  - rewrite mixin_no_span in Hextra. injection Hextra as <-.
    split; [repeat split |].
    split.
    + intros [[x Hx] _]. discriminate Hx.
    + intros (sp' & sc' & [=] & _).
Qed.

Lemma record_carries_active_span_context_witness :
  exists sinks r,
    AppLogger.createLog 0 LInfo "info log test 1!" None traced_world =
      (Normal tt, add_call (Pino_write sinks r) traced_world) /\
    rec_level r = LInfo /\ rec_msg r = "info log test 1!" /\
    match context_active traced_world ≫= spanContext with
    | Some sc =>
        rec_fields r !! "trace_id" = Some (VStr (traceId sc)) /\
        rec_fields r !! "span_id" = Some (VStr (spanId sc)) /\
        rec_fields r !! "trace_flags" =
          Some (VStr ("0" +:+ Number_toString16 (nullish_or (traceFlags sc) 0)))
    | None => carries_no_trace_field r
    end /\
    (carries_trace_fields r <->
     exists sp sc, context_active traced_world = Some sp /\ spanContext sp = Some sc).
Proof.
  refine (record_carries_active_span_context traced_world 0
            (initialized_with [ pretty_target;
                                hyperdx_target (Some "key") (Some "hono-hyperdx-poc") ])
            LInfo "info log test 1!" None _ _ _).
  - unfold traced_world, loaded_world. do 2 apply reachable_step.
    apply reachable_initial.
  - reflexivity.
  - reflexivity.
Defined.

(** C8.  The mixin is total and never raises: in every ambient context it
    returns a field mapping, which is empty when no span is active and when
    the active span has no span context; absent trace flags are read as [0];
    and a log call on the initialized logger never fails, whatever the
    tracing state. *)
Theorem mixin_never_raises (w : World) (this : nat) (o : AppLoggerObj)
    (Hreach : reachable w)
    (Hthis : loggers w !! this = Some o)
    (Hinit : isInitialized o = true) :
  (forall ctx : Context, exists fields, mixin ctx = Normal fields) /\
  mixin None = Normal ∅ /\
  (forall sp, spanContext sp = None -> mixin (Some sp) = Normal ∅) /\
  (forall sp sc, spanContext sp = Some sc -> traceFlags sc = None ->
     contributed (Some sp) "trace_flags" = Some (VStr "00")) /\
  (forall level message opts ss a,
     exists w',
       AppLogger.createLog this level message opts (set_active a (set_spans ss w)) =
         (Normal tt, w')).
Proof.
  split.
  { intros [sp |]; [| eexists; apply mixin_no_span].
    destruct (spanContext sp) as [sc |] eqn:Hsc.
    - eexists. apply (mixin_active sp sc Hsc).
    - eexists. apply (mixin_no_context sp Hsc). }
  split; [apply mixin_no_span |].
  split; [apply mixin_no_context |].
  split.
  { intros sp sc Hsc Hnone.
    rewrite (contributed_trace_flags sp sc Hsc), Hnone. reflexivity. }
  intros level message opts ss a.
  assert (Hreach' : reachable (run_op (OpSetContext ss a) w))
    by (apply reachable_step, Hreach).
  destruct (level_enabled level) eqn:Henabled.
  - destruct (createLog_emits _ this o level message opts Hreach' Hthis Hinit Henabled)
      as (pl & extra & _ & _ & _ & Hrun).
    eexists. exact Hrun.
  - eexists.
    exact (createLog_dropped _ this o level message opts Hreach' Hthis Hinit Henabled).
Qed.

Lemma mixin_never_raises_witness :
  (forall ctx : Context, exists fields, mixin ctx = Normal fields) /\
  mixin None = Normal ∅ /\
  (forall sp, spanContext sp = None -> mixin (Some sp) = Normal ∅) /\
  (forall sp sc, spanContext sp = Some sc -> traceFlags sc = None ->
     contributed (Some sp) "trace_flags" = Some (VStr "00")) /\
  (forall level message opts ss a,
     exists w',
       AppLogger.createLog 0 level message opts
         (set_active a (set_spans ss malformed_world)) = (Normal tt, w')).
Proof.
  apply (mixin_never_raises malformed_world 0
           (initialized_with [ pretty_target;
                               hyperdx_target (Some "key") (Some "hono-hyperdx-poc") ])).
  - unfold malformed_world, loaded_world. do 2 apply reachable_step.
    apply reachable_initial.
  - reflexivity.
  - reflexivity.
Defined.

(** ** Claims about construction *)

(** C5.  Construction happens once: after [getLogger] has returned an
    instance, any number of further calls return that same instance and leave
    the state untouched (no sink is registered again), also when the
    environment has changed in between (the configuration is not validated
    again); [initialize] on an initialized logger does nothing; and the
    instance returned by the call that created it is initialized. *)
Theorem getLogger_constructs_once (w w' : World) (l : nat)
    (Hfirst : getLogger w = (Normal l, w')) :
  (forall (n : nat) (e : Env),
     getLogger_times n (set_env e w') = (replicate n (Normal l), set_env e w')) /\
  (forall (this : nat) (o : AppLoggerObj) (e : Env),
     loggers w' !! this = Some o -> isInitialized o = true ->
     AppLogger.initialize this (set_env e w') = (Normal tt, set_env e w')) /\
  (globalLogger w = None ->
   exists o, loggers w' !! l = Some o /\ isInitialized o = true).
Proof.
  assert (Hglobal : globalLogger w' = Some l).
  { rewrite getLogger_run in Hfirst.
    destruct (globalLogger w) as [g |] eqn:Hg.
    - injection Hfirst as <- <-. exact Hg.
    - cbv zeta in Hfirst.
      pose proof (initialize_globalLogger (length (loggers w))
                    (set_globalLogger (Some (length (loggers w)))
                       (snd (AppLogger.new w)))) as Hkeep.
      destruct (AppLogger.initialize _ _) as [[[] | err] w1]; simpl in *;
        [| discriminate].
      injection Hfirst as <- <-. exact Hkeep. }
  split; [| split].
  - intros n e. induction n as [| n IH]; [reflexivity |].
    simpl. rewrite getLogger_run. simpl. rewrite Hglobal, IH. reflexivity.
  - intros this o e Hl Hi. rewrite initialize_run. simpl. rewrite Hl, Hi.
    reflexivity.
  - intros Hnone. rewrite getLogger_run, Hnone in Hfirst. cbv zeta in Hfirst.
    rewrite initialize_run in Hfirst. simpl in Hfirst.
    rewrite lookup_app_r, Nat.sub_diag in Hfirst by lia. simpl in Hfirst.
    destruct (configured _) eqn:Hcfg; simpl in Hfirst; [| discriminate].
    injection Hfirst as <- <-. eexists.
    split; [simpl; apply list_lookup_insert_eq; rewrite length_app; simpl; lia |].
    reflexivity.
Qed.

(** When the first construction fails on the configuration, the instance has
    already been stored: the next call returns it without initializing it. *)
Lemma getLogger_after_failed_construction (e : Env) :
  configured (initial_world e) = false ->
  exists err w1,
    getLogger (initial_world e) = (Throw err, w1) /\
    getLogger (set_env sample_env w1) = (Normal 0%nat, set_env sample_env w1) /\
    loggers w1 !! 0%nat = Some {| isInitialized := false; pinoLogger := None |}.
Proof.
  intros Hcfg. rewrite getLogger_run. simpl. rewrite initialize_run. simpl.
  unfold configured in *. simpl in *. rewrite Hcfg.
  eexists _, _. repeat split.
Qed.

Lemma getLogger_constructs_once_witness :
  (forall (n : nat) (e : Env),
     getLogger_times n (set_env e loaded_world) =
       (replicate n (Normal 0%nat), set_env e loaded_world)) /\
  (forall (this : nat) (o : AppLoggerObj) (e : Env),
     loggers loaded_world !! this = Some o -> isInitialized o = true ->
     AppLogger.initialize this (set_env e loaded_world) =
       (Normal tt, set_env e loaded_world)) /\
  (globalLogger (initial_world sample_env) = None ->
   exists o, loggers loaded_world !! 0%nat = Some o /\ isInitialized o = true).
Proof.
  apply (getLogger_constructs_once (initial_world sample_env) loaded_world 0).
  reflexivity.
Defined.

(** C6, as stated, fails: with [HYPERDX_API_KEY] present but empty and
    [HYPERDX_SERVICE] present, neither is missing from the environment, yet
    initialization throws. *)
Lemma initialize_throws_iff_missing_counterexample :
  let e := {| HYPERDX_API_KEY := Some ""; HYPERDX_SERVICE := Some "hono-hyperdx-poc" |} in
  let w := run_op OpNew (initial_world e) in
  HYPERDX_API_KEY (env w) <> None /\
  HYPERDX_SERVICE (env w) <> None /\
  AppLogger.initialize 0 w =
    (Throw (ErrorObj 0 config_error_message), set_fresh_ref 1 w).
Proof. repeat split; discriminate. Qed.

(** C6, amended.  Initialization of a logger that is not yet initialized
    throws an [Error] with the message [config_error_message] if and only if
    the API key or the service name is missing from the environment or is the
    empty string; otherwise it completes without throwing. *)
Theorem initialize_throws_iff_unset (w : World) (this : nat) (o : AppLoggerObj)
    (Hthis : loggers w !! this = Some o)
    (Hfresh : isInitialized o = false) :
  ((missing_or_empty (HYPERDX_API_KEY (env w)) \/
    missing_or_empty (HYPERDX_SERVICE (env w))) <->
   exists err w', AppLogger.initialize this w = (Throw err, w')) /\
  ((missing_or_empty (HYPERDX_API_KEY (env w)) \/
    missing_or_empty (HYPERDX_SERVICE (env w))) ->
   AppLogger.initialize this w =
     (Throw (ErrorObj (fresh_ref w) config_error_message),
      set_fresh_ref (S (fresh_ref w)) w)) /\
  (~ (missing_or_empty (HYPERDX_API_KEY (env w)) \/
      missing_or_empty (HYPERDX_SERVICE (env w))) ->
   AppLogger.initialize this w = (Normal tt, after_initialize this w)).
Proof.
  rewrite initialize_run, Hthis, Hfresh.
  rewrite <- !truthy_string_false.
  unfold configured.
  destruct (truthy_string (HYPERDX_API_KEY (env w)));
    destruct (truthy_string (HYPERDX_SERVICE (env w))); simpl.
  all: split; [split |].
  all: try (intros [? | ?]; discriminate).
  all: try (intros (err & w' & ?); discriminate).
  all: try (intros _; eauto).
  all: try (split; [intros _; reflexivity | intros Hn; exfalso; apply Hn; auto]).
  all: try (split; [intros [? | ?]; discriminate | intros _; reflexivity]).
Qed.

Lemma initialize_throws_iff_unset_witness :
  let w := run_op OpNew (initial_world sample_env) in
  ((missing_or_empty (HYPERDX_API_KEY (env w)) \/
    missing_or_empty (HYPERDX_SERVICE (env w))) <->
   exists err w', AppLogger.initialize 0 w = (Throw err, w')) /\
  ((missing_or_empty (HYPERDX_API_KEY (env w)) \/
    missing_or_empty (HYPERDX_SERVICE (env w))) ->
   AppLogger.initialize 0 w =
     (Throw (ErrorObj (fresh_ref w) config_error_message),
      set_fresh_ref (S (fresh_ref w)) w)) /\
  (~ (missing_or_empty (HYPERDX_API_KEY (env w)) \/
      missing_or_empty (HYPERDX_SERVICE (env w))) ->
   AppLogger.initialize 0 w = (Normal tt, after_initialize 0 w)).
Proof.
  apply (initialize_throws_iff_unset (run_op OpNew (initial_world sample_env)) 0
           {| isInitialized := false; pinoLogger := None |}).
  - reflexivity.
  - reflexivity.
Defined.

(** C10.  Whenever [initialize] returns normally, the logger's sink list is
    exactly the console sink followed by the remote sink: the guard
    [if (apiKey)] holds once the credential check has passed, so no
    transport with the console sink alone is ever built. *)
Theorem initialize_registers_two_sinks (w w' : World) (this : nat)
    (Hreach : reachable w)
    (Hret : AppLogger.initialize this w = (Normal tt, w')) :
  exists (o : AppLoggerObj) (pl : PinoLogger),
    loggers w' !! this = Some o /\
    isInitialized o = true /\
    pinoLogger o = Some pl /\
    two_sinks (pino_targets pl) /\
    map target (pino_targets pl) =
      [ "pino-pretty"; "@hyperdx/node-logger/build/src/pino" ] /\
    (forall ts, In (Pino_transport ts) (calls w') -> two_sinks ts).
Proof.
  assert (Hok' : world_ok w').
  { replace w' with (run_op (OpInitialize this) w) by (simpl; rewrite Hret; reflexivity).
    apply reachable_ok, reachable_step, Hreach. }
  assert (Hnames : forall ts, two_sinks ts ->
            map target ts = [ "pino-pretty"; "@hyperdx/node-logger/build/src/pino" ]).
  { intros ts (k & s & _ & _ & ->). reflexivity. }
  rewrite initialize_run in Hret.
  destruct (loggers w !! this) as [o |] eqn:Hl; [| discriminate].
  destruct (isInitialized o) eqn:Hi.
  - injection Hret as <-.
    destruct (reachable_initialized w this o Hreach Hl Hi) as (pl & Hpl & _ & Hts).
    exists o, pl. repeat split; auto. apply Hok'.
  - destruct (configured w) eqn:Hcfg; [| discriminate].
    injection Hret as <-.
    pose proof (two_sinks_configured w Hcfg) as Hts.
    eexists _, _. split.
    { simpl. apply list_lookup_insert_eq. eapply lookup_lt_Some, Hl. }
    repeat split; auto. apply Hok'.
Qed.

Lemma initialize_registers_two_sinks_witness :
  exists (o : AppLoggerObj) (pl : PinoLogger),
    loggers (after_initialize 0 (run_op OpNew (initial_world sample_env))) !! 0%nat
      = Some o /\
    isInitialized o = true /\
    pinoLogger o = Some pl /\
    two_sinks (pino_targets pl) /\
    map target (pino_targets pl) =
      [ "pino-pretty"; "@hyperdx/node-logger/build/src/pino" ] /\
    (forall ts,
       In (Pino_transport ts)
          (calls (after_initialize 0 (run_op OpNew (initial_world sample_env)))) ->
       two_sinks ts).
Proof.
  apply (initialize_registers_two_sinks (run_op OpNew (initial_world sample_env))).
  - apply reachable_step, reachable_initial.
  - reflexivity.
Defined.

(** ** Claims about the facade *)

(** C7, as stated, fails: the class has no [debug] and no [trace] entry
    point; on the initialized logger, [logger.debug(...)] and
    [logger.trace(...)] are not functions and nothing is logged. *)
Lemma level_entry_points_counterexample :
  ~ In (level_name LDebug) AppLogger.methods /\
  ~ In (level_name LTrace) AppLogger.methods /\
  AppLogger.call_level_method LDebug 0 "debug log" None loaded_world =
    (Throw (TypeError "logger.debug is not a function"), loaded_world) /\
  AppLogger.call_level_method LTrace 0 "trace log" None loaded_world =
    (Throw (TypeError "logger.trace is not a function"), loaded_world).
Proof.
  repeat split; try reflexivity.
  all: simpl; intros H; repeat (destruct H as [H | H]; [discriminate H |]); exact H.
Qed.

(** C7, amended.  The facade has one entry point for each of the levels
    info, warn and error, and the general [createLog], which takes any of the
    five levels.  Each takes a message and an optional options bundle, and
    hands the provider's method of that level the message with [data] (the
    empty map by default) and [tag] (the empty string by default).  At info,
    warn and error this writes one record with these fields; at debug and
    trace the logger's threshold makes the call a no-op. *)
Theorem level_entry_points (w : World) (this : nat) (o : AppLoggerObj)
    (message : string) (opts : option LogOptions)
    (Hreach : reachable w)
    (Hthis : loggers w !! this = Some o)
    (Hinit : isInitialized o = true) :
  (forall level, In level [ LInfo; LWarn; LError ] ->
     In (level_name level) AppLogger.methods /\
     AppLogger.call_level_method level this message opts w =
       AppLogger.createLog this level message opts w /\
     exists sinks r,
       AppLogger.createLog this level message opts w =
         (Normal tt, add_call (Pino_write sinks r) w) /\
       rec_level r = level /\
       rec_msg r = message /\
       rec_fields r !! "data" = Some (VObj (data_or_default opts)) /\
       rec_fields r !! "tag" = Some (VStr (tag_or_default opts))) /\
  (forall level : Level,
     exists pl,
       pinoLogger o = Some pl /\
       AppLogger.createLog this level message opts w =
         pino_log pl level (log_object opts) message w) /\
  (forall level, In level [ LDebug; LTrace ] ->
     AppLogger.createLog this level message opts w = (Normal tt, w)) /\
  log_object opts !! "data" = Some (VObj (data_or_default opts)) /\
  log_object opts !! "tag" = Some (VStr (tag_or_default opts)) /\
  data_or_default None = [] /\ tag_or_default None = "" /\
  data_or_default (Some {| data := None; tag := None |}) = [] /\
  tag_or_default (Some {| data := None; tag := None |}) = "".
Proof.
  assert (Hdata : nullish_or (opts ≫= data) [] = data_or_default opts)
    by (destruct opts as [[[d |] t] |]; reflexivity).
  assert (Htag : nullish_or (opts ≫= tag) "" = tag_or_default opts)
    by (destruct opts as [[d [t |]] |]; reflexivity).
  split.
  { intros level Hin.
    assert (Henabled : level_enabled level = true)
      by (destruct Hin as [<- | [<- | [<- | []]]]; reflexivity).
    split; [destruct Hin as [<- | [<- | [<- | []]]]; simpl; tauto |].
    split; [destruct Hin as [<- | [<- | [<- | []]]]; reflexivity |].
    destruct (createLog_emits w this o level message opts Hreach Hthis Hinit Henabled)
      as (pl & extra & _ & _ & _ & Hrun).
    eexists _, _. split; [exact Hrun |]. simpl.
    rewrite <- Hdata, <- Htag.
    repeat split; apply lookup_union_Some_l; reflexivity. }
  split.
  { intros level.
    destruct (reachable_initialized w this o Hreach Hthis Hinit) as (pl & Hpl & _ & _).
    exists pl. split; [exact Hpl |].
    unfold AppLogger.createLog, AppLogger.deref, bind, gets, lift.
    simpl. rewrite Hthis. simpl. rewrite Hpl. reflexivity. }
  split.
  { intros level Hin.
    apply (createLog_dropped w this o level message opts Hreach Hthis Hinit).
    destruct Hin as [<- | [<- | []]]; reflexivity. }
  rewrite <- Hdata, <- Htag. repeat split.
Qed.

Lemma level_entry_points_witness :
  (forall level, In level [ LInfo; LWarn; LError ] ->
     In (level_name level) AppLogger.methods /\
     AppLogger.call_level_method level 0 "info log test 1!" None loaded_world =
       AppLogger.createLog 0 level "info log test 1!" None loaded_world /\
     exists sinks r,
       AppLogger.createLog 0 level "info log test 1!" None loaded_world =
         (Normal tt, add_call (Pino_write sinks r) loaded_world) /\
       rec_level r = level /\
       rec_msg r = "info log test 1!" /\
       rec_fields r !! "data" = Some (VObj (data_or_default None)) /\
       rec_fields r !! "tag" = Some (VStr (tag_or_default None))) /\
  (forall level : Level,
     exists pl,
       pinoLogger (initialized_with
                     [ pretty_target;
                       hyperdx_target (Some "key") (Some "hono-hyperdx-poc") ]) = Some pl /\
       AppLogger.createLog 0 level "info log test 1!" None loaded_world =
         pino_log pl level (log_object None) "info log test 1!" loaded_world) /\
  (forall level, In level [ LDebug; LTrace ] ->
     AppLogger.createLog 0 level "info log test 1!" None loaded_world =
       (Normal tt, loaded_world)) /\
  log_object None !! "data" = Some (VObj (data_or_default None)) /\
  log_object None !! "tag" = Some (VStr (tag_or_default None)) /\
  data_or_default None = [] /\ tag_or_default None = "" /\
  data_or_default (Some {| data := None; tag := None |}) = [] /\
  tag_or_default (Some {| data := None; tag := None |}) = "".
Proof.
  apply (level_entry_points loaded_world 0
           (initialized_with [ pretty_target;
                               hyperdx_target (Some "key") (Some "hono-hyperdx-poc") ])).
  - unfold loaded_world. apply reachable_step, reachable_initial.
  - reflexivity.
  - reflexivity.
Defined.

(** ** Claims about the tracing middleware *)

Section Middleware.

Context {R : Type}.

Lemma span_call_run (span : nat) (c : SpanCall) (w : World) :
  span_call span c w =
    (Normal tt, set_spans (alter (fun s => with_calls s [ c ]) span (spans w)) w).
Proof. reflexivity. Qed.

(** The middleware when the rest of the chain throws a value [e] whose
    [message] can be read. *)
Lemma tracing_middleware_throw (tracer : Tracer) (req : Request) (next : M R)
    (w w1 : World) (e : Thrown) (m : option string) :
  next (span_started tracer req w) = (Throw e, w1) ->
  message_of e = Normal m ->
  tracing_middleware tracer req next w =
    (Throw e,
     set_active (active w)
       (set_spans
          (alter (fun s => with_calls s [ RecordException e; SetStatus 2 m; End ])
                 (length (spans w)) (spans w1)) w1)).
Proof.
  intros Hnext Hmsg.
  unfold tracing_middleware, startActiveSpan, try_catch_finally.
  fold (span_started tracer req w).
  unfold bind at 1. rewrite Hnext.
  unfold bind, lift, throw. rewrite !span_call_run, Hmsg. simpl.
  unfold set_active, set_spans. simpl. do 2 f_equal.
  rewrite !list_alter_alter_eq.
  apply list_alter_ext; [| reflexivity].
  intros s _. unfold compose, with_calls. simpl.
  rewrite <- !app_assoc. reflexivity.
Qed.

(** The middleware when the rest of the chain returns. *)
Lemma tracing_middleware_return (tracer : Tracer) (req : Request) (next : M R)
    (w w1 : World) (result : R) :
  next (span_started tracer req w) = (Normal result, w1) ->
  tracing_middleware tracer req next w =
    (Normal result,
     set_active (active w)
       (set_spans
          (alter (fun s => with_calls s [ SetStatus 1 None; End ])
                 (length (spans w)) (spans w1)) w1)).
Proof.
  intros Hnext.
  unfold tracing_middleware, startActiveSpan, try_catch_finally.
  fold (span_started tracer req w).
  unfold bind at 1. rewrite Hnext.
  unfold bind, ret. rewrite !span_call_run. simpl.
  unfold set_active, set_spans. simpl. do 2 f_equal.
  rewrite !list_alter_alter_eq.
  apply list_alter_ext; [| reflexivity].
  intros s _. unfold compose, with_calls. simpl.
  rewrite <- !app_assoc. reflexivity.
Qed.

(** A thrown [null] or [undefined] is outside the cast [error as Error]:
    reading its [message] raises, and that [TypeError] is what propagates. *)
Lemma tracing_middleware_throw_nullish (tracer : Tracer) (req : Request)
    (next : M R) (w w1 : World) :
  next (span_started tracer req w) = (Throw Nullish, w1) ->
  fst (tracing_middleware tracer req next w) =
    Throw (TypeError "Cannot read properties of undefined (reading 'message')").
Proof.
  intros Hnext.
  unfold tracing_middleware, startActiveSpan, try_catch_finally.
  fold (span_started tracer req w).
  unfold bind at 1. rewrite Hnext. reflexivity.
Qed.

End Middleware.

(** The rest of the chain, as Hono gives it to the middleware, when the
    handler throws. *)
Lemma hono_next_throw {R : Type} (onError : Thrown -> M R) (handler : M R)
    (w w1 : World) (e : Thrown) :
  handler w = (Throw e, w1) ->
  hono_next onError handler w =
    if instance_of_Error e then onError e w1 else (Throw e, w1).
Proof. intros H. unfold hono_next. rewrite H. reflexivity. Qed.

(** C4, as the code runs behind Hono.  An [Error] thrown by the handler does
    not reach the [catch] of the middleware: the framework hands it to the
    error handler and [next()] resolves with that response.  The middleware
    then marks the request's span ok and ends it; it records no exception,
    sets no error status and re-raises nothing. *)
Theorem handler_error_reaches_no_catch (tracer : Tracer) (req : Request)
    (handler : M string) (w w1 : World) (ref : nat) (message : string)
    (sp : Span)
    (Hthrows : handler (span_started tracer req w) =
                 (Throw (ErrorObj ref message), w1))
    (Hspan : spans w1 !! length (spans w) = Some sp) :
  exists w2,
    tracing_middleware tracer req (hono_next hono_errorHandler handler) w =
      (Normal "Internal Server Error", w2) /\
    spans w2 !! length (spans w) = Some (with_calls sp [ SetStatus 1 None; End ]) /\
    active w2 = active w.
Proof.
  assert (Hnext : hono_next hono_errorHandler handler (span_started tracer req w) =
                    (Normal "Internal Server Error", w1)).
  { rewrite (hono_next_throw _ _ _ w1 _ Hthrows). reflexivity. }
  eexists. split.
  { apply (tracing_middleware_return tracer req _ w w1 _ Hnext). }
  simpl. split; [| reflexivity].
  rewrite list_lookup_alter_eq, Hspan. reflexivity.
Qed.

Lemma handler_error_reaches_no_catch_witness :
  exists w2,
    tracing_middleware sample_tracer sample_request
      (hono_next hono_errorHandler (throw (ErrorObj 7 "boom"))) loaded_world =
      (Normal "Internal Server Error", w2) /\
    spans w2 !! length (spans loaded_world) =
      Some (with_calls
              {| span_name := "GET /";
                 spanContext := Some (tracer_ids sample_tracer 0);
                 span_calls := [] |}
              [ SetStatus 1 None; End ]) /\
    active w2 = active loaded_world.
Proof.
  apply (handler_error_reaches_no_catch sample_tracer sample_request
           (throw (ErrorObj 7 "boom")) loaded_world
           (span_started sample_tracer sample_request loaded_world) 7 "boom").
  - reflexivity.
  - reflexivity.
Defined.

(** * Further properties *)

(** ** The tracing middleware, outcome by outcome *)

Section MiddlewareOutcomes.

Context {R : Type}.

(** The middleware, for any outcome of the rest of the chain. *)
Lemma tracing_middleware_run (tracer : Tracer) (req : Request) (next : M R)
    (w w1 : World) (outcome : Completion R) :
  next (span_started tracer req w) = (outcome, w1) ->
  tracing_middleware tracer req next w =
    (middleware_outcome outcome, middleware_exit w w1 (middleware_calls outcome)).
Proof.
  intros Hnext. destruct outcome as [result | e].
  - apply (tracing_middleware_return tracer req next w w1 result Hnext).
  - unfold middleware_outcome, middleware_calls.
    destruct (message_of e) as [m | t] eqn:Hmsg.
    + apply (tracing_middleware_throw tracer req next w w1 e m Hnext Hmsg).
    + unfold tracing_middleware, startActiveSpan, try_catch_finally.
      fold (span_started tracer req w).
      unfold bind at 1. rewrite Hnext.
      unfold bind, lift, throw. rewrite !span_call_run, Hmsg. simpl.
      unfold middleware_exit, set_active, set_spans. simpl. do 2 f_equal.
      rewrite !list_alter_alter_eq.
      apply list_alter_ext; [| reflexivity].
      intros s _. unfold compose, with_calls. simpl.
      rewrite <- !app_assoc. reflexivity.
Qed.

Lemma middleware_exit_span (w w1 : World) (cs : list SpanCall) (sp : Span) :
  spans w1 !! length (spans w) = Some sp ->
  spans (middleware_exit w w1 cs) !! length (spans w) = Some (with_calls sp cs).
Proof.
  intros Hsp. simpl. rewrite list_lookup_alter_eq, Hsp. reflexivity.
Qed.

End MiddlewareOutcomes.

(** X1.  When the handler chain returns, the middleware marks the request's
    span ok (status code 1, no message), then ends it, restores the ambient
    context and returns the chain's result unchanged; no other span and
    nothing else in the state is touched. *)
Theorem middleware_marks_ok_and_returns {R : Type} (tracer : Tracer)
    (req : Request) (next : M R) (w w1 : World) (result : R) (sp : Span)
    (Hreturns : next (span_started tracer req w) = (Normal result, w1))
    (Hspan : spans w1 !! length (spans w) = Some sp) :
  exists w2,
    tracing_middleware tracer req next w = (Normal result, w2) /\
    spans w2 !! length (spans w) = Some (with_calls sp [ SetStatus 1 None; End ]) /\
    (forall j, j <> length (spans w) -> spans w2 !! j = spans w1 !! j) /\
    active w2 = active w /\
    loggers w2 = loggers w1 /\ globalLogger w2 = globalLogger w1 /\
    calls w2 = calls w1 /\ env w2 = env w1.
Proof.
  eexists. split.
  { apply (tracing_middleware_run tracer req next w w1 (Normal result) Hreturns). }
  split; [apply (middleware_exit_span w w1 _ sp Hspan) |].
  split; [| repeat split].
  intros j Hj. simpl. apply list_lookup_alter_ne. congruence.
Qed.

Lemma middleware_marks_ok_and_returns_witness :
  exists w2,
    tracing_middleware sample_tracer sample_request (ret "done" : M string)
      loaded_world = (Normal "done", w2) /\
    spans w2 !! length (spans loaded_world) =
      Some (with_calls
              {| span_name := "GET /";
                 spanContext := Some (tracer_ids sample_tracer 0);
                 span_calls := [] |}
              [ SetStatus 1 None; End ]) /\
    (forall j, j <> length (spans loaded_world) ->
       spans w2 !! j = spans (span_started sample_tracer sample_request loaded_world) !! j) /\
    active w2 = active loaded_world /\
    loggers w2 = loggers (span_started sample_tracer sample_request loaded_world) /\
    globalLogger w2 =
      globalLogger (span_started sample_tracer sample_request loaded_world) /\
    calls w2 = calls (span_started sample_tracer sample_request loaded_world) /\
    env w2 = env (span_started sample_tracer sample_request loaded_world).
Proof.
  apply (middleware_marks_ok_and_returns sample_tracer sample_request
           (ret "done") loaded_world
           (span_started sample_tracer sample_request loaded_world) "done").
  - reflexivity.
  - reflexivity.
Defined.



(** X3.  Whatever the handler chain does (return, throw an error, throw
    [null]), the middleware ends the request's span exactly once, as the last
    call on it, and leaves the ambient context as it was before the
    request. *)
Theorem middleware_always_ends_span {R : Type} (tracer : Tracer)
    (req : Request) (next : M R) (w w1 : World) (outcome : Completion R)
    (sp : Span)
    (Hnext : next (span_started tracer req w) = (outcome, w1))
    (Hspan : spans w1 !! length (spans w) = Some sp) :
  exists cs,
    spans (snd (tracing_middleware tracer req next w)) !! length (spans w) =
      Some (with_calls sp (cs ++ [ End ])) /\
    ~ In End cs /\
    active (snd (tracing_middleware tracer req next w)) = active w.
Proof.
  rewrite (tracing_middleware_run tracer req next w w1 outcome Hnext).
  unfold snd. rewrite (middleware_exit_span w w1 _ sp Hspan).
  destruct outcome as [result | e]; simpl.
  - exists [ SetStatus 1 None ]. repeat split. intros [[=] | []].
  - destruct (message_of e) as [m | t].
    + exists [ RecordException e; SetStatus 2 m ]. repeat split.
      intros [[=] | [[=] | []]].
    + exists [ RecordException e ]. repeat split. intros [[=] | []].
Qed.

Lemma middleware_always_ends_span_witness :
  exists cs,
    spans (snd (tracing_middleware sample_tracer sample_request
                  (throw (Primitive (VStr "oops")) : M string) loaded_world))
      !! length (spans loaded_world) =
      Some (with_calls
              {| span_name := "GET /";
                 spanContext := Some (tracer_ids sample_tracer 0);
                 span_calls := [] |}
              (cs ++ [ End ])) /\
    ~ In End cs /\
    active (snd (tracing_middleware sample_tracer sample_request
                   (throw (Primitive (VStr "oops")) : M string) loaded_world)) =
      active loaded_world.
Proof.
  apply (middleware_always_ends_span sample_tracer sample_request
           (throw (Primitive (VStr "oops"))) loaded_world
           (span_started sample_tracer sample_request loaded_world)
           (Throw (Primitive (VStr "oops")))).
  - reflexivity.
  - reflexivity.
Defined.

(** ** The handler of [GET /] *)

Section RootHandler.

Lemma root_handler_run (w : World) (logger : nat) (o : AppLoggerObj) :
  reachable w -> loggers w !! logger = Some o -> isInitialized o = true ->
  exists sinks extra,
    two_sinks sinks /\
    mixin (context_active w) = Normal extra /\
    root_handler logger w =
      (Normal "Hello Hono!",
       add_call (Pino_write sinks (root_error_record extra))
         (add_call (Pino_write sinks (root_info_record extra)) w)).
Proof.
  intros Hr Hl Hi.
  set (opts1 := Some {| data := Some [ ("message", VStr "Hello Hono 1!") ];
                        tag := Some "hello-hono" |}).
  set (opts2 := Some {| data := Some [ ("message", VStr "Error Hono 1!") ];
                        tag := Some "error-hono" |}).
  destruct (createLog_emits w logger o LInfo "info log test 1!" opts1 Hr Hl Hi eq_refl)
    as (pl & extra & Hpl & Hts & Hextra & Hrun1).
  assert (Hr1 : reachable (run_op (OpCreateLog logger LInfo "info log test 1!" opts1) w))
    by (apply reachable_step, Hr).
  simpl in Hr1. rewrite Hrun1 in Hr1. simpl in Hr1.
  destruct (createLog_emits _ logger o LError "error log test 1!" opts2 Hr1 Hl Hi eq_refl)
    as (pl' & extra' & Hpl' & _ & Hextra' & Hrun2).
  assert (pl' = pl) as -> by congruence.
  change (context_active (add_call _ w)) with (context_active w) in Hextra'.
  assert (extra' = extra) as -> by congruence.
  exists (pino_targets pl), extra. split; [exact Hts | split; [exact Hextra |]].
  unfold root_handler, AppLogger.info, AppLogger.error.
  fold opts1 opts2.
  unfold bind at 1. rewrite Hrun1.
  unfold bind at 1. rewrite Hrun2. reflexivity.
Qed.

End RootHandler.

(** X4.  On the initialized logger, the handler of [GET /] hands the sinks
    exactly two records, the info record and then the error record, each with
    its own [data] and [tag] over the same mixin fields, and returns the text
    [Hello Hono!]: logging at level error does not make the handler fail. *)
Theorem root_handler_logs_info_then_error (w : World) (logger : nat)
    (o : AppLoggerObj)
    (Hreach : reachable w)
    (Hthis : loggers w !! logger = Some o)
    (Hinit : isInitialized o = true) :
  exists sinks extra,
    two_sinks sinks /\
    mixin (context_active w) = Normal extra /\
    root_handler logger w =
      (Normal "Hello Hono!",
       add_call (Pino_write sinks (root_error_record extra))
         (add_call (Pino_write sinks (root_info_record extra)) w)).
Proof. exact (root_handler_run w logger o Hreach Hthis Hinit). Qed.

Lemma root_handler_logs_info_then_error_witness :
  exists sinks extra,
    two_sinks sinks /\
    mixin (context_active loaded_world) = Normal extra /\
    root_handler 0 loaded_world =
      (Normal "Hello Hono!",
       add_call (Pino_write sinks (root_error_record extra))
         (add_call (Pino_write sinks (root_info_record extra)) loaded_world)).
Proof.
  apply (root_handler_logs_info_then_error loaded_world 0
           (initialized_with [ pretty_target;
                               hyperdx_target (Some "key") (Some "hono-hyperdx-poc") ])).
  - unfold loaded_world. apply reachable_step, reachable_initial.
  - reflexivity.
  - reflexivity.
Defined.

(** X5.  A request served by the handler of [GET /] behind the middleware,
    for any tracer and any request line: both records carry the trace id and
    the span id the tracer gave to the request's span, the span is marked ok
    and ended although an error-level record was logged, the response text
    comes back, and the ambient context is restored. *)
Theorem request_logs_carry_request_span (tracer : Tracer) (req : Request)
    (w : World) (logger : nat) (o : AppLoggerObj)
    (Hreach : reachable w)
    (Hthis : loggers w !! logger = Some o)
    (Hinit : isInitialized o = true) :
  exists sinks w2,
    tracing_middleware tracer req (root_handler logger) w =
      (Normal "Hello Hono!", w2) /\
    calls w2 =
      (calls w ++
       [ Pino_write sinks (root_info_record (span_fields (tracer_ids tracer (length (spans w)))));
         Pino_write sinks (root_error_record (span_fields (tracer_ids tracer (length (spans w))))) ])%list /\
    (forall r, r = root_info_record (span_fields (tracer_ids tracer (length (spans w)))) \/
               r = root_error_record (span_fields (tracer_ids tracer (length (spans w)))) ->
       rec_fields r !! "trace_id" =
         Some (VStr (traceId (tracer_ids tracer (length (spans w))))) /\
       rec_fields r !! "span_id" =
         Some (VStr (spanId (tracer_ids tracer (length (spans w)))))) /\
    spans w2 !! length (spans w) =
      Some {| span_name := method req +:+ " " +:+ path req;
              spanContext := Some (tracer_ids tracer (length (spans w)));
              span_calls := [ SetStatus 1 None; End ] |} /\
    active w2 = active w.
Proof.
  set (sc := tracer_ids tracer (length (spans w))).
  set (sp := {| span_name := method req +:+ " " +:+ path req;
                spanContext := Some sc; span_calls := [] |}).
  assert (Hctx : context_active (span_started tracer req w) = Some sp).
  { unfold context_active, span_started. simpl.
    rewrite lookup_app_r, Nat.sub_diag by lia. reflexivity. }
  assert (Hr' : reachable (span_started tracer req w)).
  { apply (reachable_step (OpSetContext (spans w ++ [ sp ]) (Some (length (spans w)))) w Hreach). }
  destruct (root_handler_run (span_started tracer req w) logger o Hr' Hthis Hinit)
    as (sinks & extra & _ & Hextra & Hrun).
  rewrite Hctx, (mixin_active sp sc eq_refl) in Hextra.
  injection Hextra as <-. fold (span_fields sc) in Hrun.
  exists sinks. eexists. split.
  { apply (tracing_middleware_run tracer req (root_handler logger) w _ _ Hrun). }
  split; [simpl; rewrite <- app_assoc; reflexivity |].
  split; [intros r [-> | ->]; split; reflexivity |].
  split; [| reflexivity].
  rewrite (middleware_exit_span w _ _ sp).
  - reflexivity.
  - simpl. rewrite lookup_app_r, Nat.sub_diag by lia. reflexivity.
Qed.

Lemma request_logs_carry_request_span_witness :
  exists sinks w2,
    tracing_middleware sample_tracer sample_request (root_handler 0) loaded_world =
      (Normal "Hello Hono!", w2) /\
    calls w2 =
      (calls loaded_world ++
       [ Pino_write sinks
           (root_info_record
              (span_fields (tracer_ids sample_tracer (length (spans loaded_world)))));
         Pino_write sinks
           (root_error_record
              (span_fields (tracer_ids sample_tracer (length (spans loaded_world))))) ])%list /\
    (forall r,
       r = root_info_record
             (span_fields (tracer_ids sample_tracer (length (spans loaded_world)))) \/
       r = root_error_record
             (span_fields (tracer_ids sample_tracer (length (spans loaded_world)))) ->
       rec_fields r !! "trace_id" =
         Some (VStr (traceId (tracer_ids sample_tracer (length (spans loaded_world))))) /\
       rec_fields r !! "span_id" =
         Some (VStr (spanId (tracer_ids sample_tracer (length (spans loaded_world)))))) /\
    spans w2 !! length (spans loaded_world) =
      Some {| span_name := method sample_request +:+ " " +:+ path sample_request;
              spanContext :=
                Some (tracer_ids sample_tracer (length (spans loaded_world)));
              span_calls := [ SetStatus 1 None; End ] |} /\
    active w2 = active loaded_world.
Proof.
  apply (request_logs_carry_request_span sample_tracer sample_request loaded_world 0
           (initialized_with [ pretty_target;
                               hyperdx_target (Some "key") (Some "hono-hyperdx-poc") ])).
  - unfold loaded_world. apply reachable_step, reachable_initial.
  - reflexivity.
  - reflexivity.
Defined.

(** ** Loggers that were not initialized *)

Section Uninitialized.

Lemma reachable_uninitialized (w : World) (this : nat) (o : AppLoggerObj) :
  reachable w -> loggers w !! this = Some o -> isInitialized o = false ->
  pinoLogger o = None.
Proof.
  intros Hr Hl Hi.
  destruct (reachable_ok w Hr) as [Hall _].
  rewrite Forall_lookup in Hall. specialize (Hall this o Hl).
  unfold logger_ok in Hall. destruct (pinoLogger o) as [pl |]; [| reflexivity].
  destruct Hall as [Htrue _]. congruence.
Qed.

Lemma createLog_without_pino (this : nat) (level : Level) (message : string)
    (opts : option LogOptions) (w : World) (o : AppLoggerObj) :
  loggers w !! this = Some o -> pinoLogger o = None ->
  AppLogger.createLog this level message opts w = (Throw (no_pino_logger_error level), w).
Proof.
  intros Hl Hp.
  unfold AppLogger.createLog, AppLogger.deref, bind, gets, lift.
  simpl. rewrite Hl. simpl. rewrite Hp. reflexivity.
Qed.

End Uninitialized.

(** X6.  A log call on a logger that has not been initialized (a fresh
    [new AppLogger()], or one whose initialization threw) raises a
    [TypeError] for the missing pino logger and hands nothing to any sink:
    the state is unchanged. *)
Theorem createLog_before_initialize_throws (w : World) (this : nat)
    (o : AppLoggerObj) (level : Level) (message : string)
    (opts : option LogOptions)
    (Hreach : reachable w)
    (Hthis : loggers w !! this = Some o)
    (Hfresh : isInitialized o = false) :
  AppLogger.createLog this level message opts w =
    (Throw (no_pino_logger_error level), w).
Proof.
  apply (createLog_without_pino this level message opts w o Hthis).
  exact (reachable_uninitialized w this o Hreach Hthis Hfresh).
Qed.

Lemma createLog_before_initialize_throws_witness :
  AppLogger.createLog 0 LInfo "too early" None (run_op OpNew (initial_world sample_env)) =
    (Throw (no_pino_logger_error LInfo), run_op OpNew (initial_world sample_env)).
Proof.
  apply (createLog_before_initialize_throws (run_op OpNew (initial_world sample_env)) 0
           {| isInitialized := false; pinoLogger := None |}).
  - apply reachable_step, reachable_initial.
  - reflexivity.
  - reflexivity.
Defined.

(** X7.  An initialization that throws on the configuration registers
    nothing: no provider is called and the logger stays as it was, so the
    same logger can be initialized later, once both variables are set. *)
Theorem failed_initialize_can_be_retried (w : World) (this : nat)
    (o : AppLoggerObj) (e : Env)
    (Hthis : loggers w !! this = Some o)
    (Hfresh : isInitialized o = false)
    (Hbad : configured w = false)
    (Hgood : configured (set_env e w) = true) :
  exists err w',
    AppLogger.initialize this w = (Throw err, w') /\
    loggers w' = loggers w /\ calls w' = calls w /\
    globalLogger w' = globalLogger w /\
    AppLogger.initialize this (set_env e w') =
      (Normal tt, after_initialize this (set_env e w')).
Proof.
  eexists _, _. split.
  { rewrite initialize_run, Hthis, Hfresh, Hbad. reflexivity. }
  repeat split.
  rewrite initialize_run. simpl. rewrite Hthis, Hfresh.
  unfold configured in *. simpl in *. rewrite Hgood. reflexivity.
Qed.

Lemma failed_initialize_can_be_retried_witness :
  exists err w',
    AppLogger.initialize 0
      (run_op OpNew (initial_world {| HYPERDX_API_KEY := None;
                                      HYPERDX_SERVICE := Some "hono-hyperdx-poc" |})) =
      (Throw err, w') /\
    loggers w' =
      loggers (run_op OpNew (initial_world {| HYPERDX_API_KEY := None;
                                              HYPERDX_SERVICE := Some "hono-hyperdx-poc" |})) /\
    calls w' =
      calls (run_op OpNew (initial_world {| HYPERDX_API_KEY := None;
                                            HYPERDX_SERVICE := Some "hono-hyperdx-poc" |})) /\
    globalLogger w' =
      globalLogger (run_op OpNew (initial_world {| HYPERDX_API_KEY := None;
                                                   HYPERDX_SERVICE := Some "hono-hyperdx-poc" |})) /\
    AppLogger.initialize 0 (set_env sample_env w') =
      (Normal tt, after_initialize 0 (set_env sample_env w')).
Proof.
  apply (failed_initialize_can_be_retried
           (run_op OpNew (initial_world {| HYPERDX_API_KEY := None;
                                           HYPERDX_SERVICE := Some "hono-hyperdx-poc" |}))
           0 {| isInitialized := false; pinoLogger := None |} sample_env).
  - reflexivity.
  - reflexivity.
  - reflexivity.
  - reflexivity.
Defined.

(** X8.  [getLogger] stores the new instance before it initializes it.  When
    that first initialization throws on the configuration, [getLogger]
    throws, but every later call returns the stored instance without
    initializing it, also after the environment has been repaired, and every
    log call on that instance raises a [TypeError]. *)
Theorem getLogger_keeps_failed_instance (w : World)
    (Hnone : globalLogger w = None)
    (Hbad : configured w = false) :
  exists w1,
    getLogger w = (Throw (ErrorObj (fresh_ref w) config_error_message), w1) /\
    loggers w1 !! length (loggers w) =
      Some {| isInitialized := false; pinoLogger := None |} /\
    calls w1 = calls w /\
    (forall e, getLogger (set_env e w1) = (Normal (length (loggers w)), set_env e w1)) /\
    (forall e level message opts,
       AppLogger.createLog (length (loggers w)) level message opts (set_env e w1) =
         (Throw (no_pino_logger_error level), set_env e w1)).
Proof.
  assert (Hl : (loggers w ++ [ {| isInitialized := false; pinoLogger := None |} ])%list
                 !! length (loggers w) =
               Some {| isInitialized := false; pinoLogger := None |}).
  { rewrite lookup_app_r, Nat.sub_diag by lia. reflexivity. }
  eexists. split.
  { rewrite getLogger_run, Hnone. cbv zeta. rewrite initialize_run. simpl.
    rewrite Hl. simpl. unfold configured in *. simpl. rewrite Hbad. reflexivity. }
  simpl. split; [exact Hl |]. split; [reflexivity |]. split.
  - intros e. rewrite getLogger_run. reflexivity.
  - intros e level message opts.
    apply (createLog_without_pino _ level message opts _
             {| isInitialized := false; pinoLogger := None |}); [exact Hl | reflexivity].
Qed.

Lemma getLogger_keeps_failed_instance_witness :
  exists w1,
    getLogger (initial_world {| HYPERDX_API_KEY := Some "key"; HYPERDX_SERVICE := None |}) =
      (Throw (ErrorObj 0 config_error_message), w1) /\
    loggers w1 !! 0%nat = Some {| isInitialized := false; pinoLogger := None |} /\
    calls w1 = [] /\
    (forall e, getLogger (set_env e w1) = (Normal 0%nat, set_env e w1)) /\
    (forall e level message opts,
       AppLogger.createLog 0 level message opts (set_env e w1) =
         (Throw (no_pino_logger_error level), set_env e w1)).
Proof.
  apply (getLogger_keeps_failed_instance
           (initial_world {| HYPERDX_API_KEY := Some "key"; HYPERDX_SERVICE := None |})).
  - reflexivity.
  - reflexivity.
Defined.

(** ** What the operations keep *)

Section Frames.

Lemma createLog_frame (this : nat) (level : Level) (message : string)
    (opts : option LogOptions) (w : World) :
  let w' := snd (AppLogger.createLog this level message opts w) in
  loggers w' = loggers w /\ globalLogger w' = globalLogger w /\
  count_HyperDX_init (calls w') = count_HyperDX_init (calls w) /\
  count_Pino_transport (calls w') = count_Pino_transport (calls w).
Proof.
  assert (Hinit : forall cs c, (forall a b, c <> HyperDX_init a b) ->
            count_HyperDX_init (cs ++ [ c ]) = count_HyperDX_init cs).
  { intros cs c Hc. induction cs as [| x cs IH]; simpl.
    - destruct c; try reflexivity. exfalso. eapply Hc. reflexivity.
    - rewrite IH. reflexivity. }
  assert (Htr : forall cs c, (forall ts, c <> Pino_transport ts) ->
            count_Pino_transport (cs ++ [ c ]) = count_Pino_transport cs).
  { intros cs c Hc. induction cs as [| x cs IH]; simpl.
    - destruct c; try reflexivity. exfalso. eapply Hc. reflexivity.
    - rewrite IH. reflexivity. }
  unfold AppLogger.createLog, AppLogger.deref, pino_log, bind, gets, lift, modify.
  simpl. destruct (loggers w !! this) as [o |]; simpl; [| auto].
  destruct (pinoLogger o) as [pl |]; simpl; [| auto].
  destruct (level_enabled level); simpl; [| auto].
  destruct (pino_mixin pl (context_active w)); simpl; [| auto].
  repeat split; [apply Hinit | apply Htr]; discriminate.
Qed.

Lemma getLogger_world (w : World) :
  snd (getLogger w) =
    match globalLogger w with
    | Some _ => w
    | None =>
        snd (AppLogger.initialize (length (loggers w))
               (set_globalLogger (Some (length (loggers w))) (snd (AppLogger.new w))))
    end.
Proof. rewrite getLogger_run. destruct (globalLogger w); reflexivity. Qed.

Lemma count_HyperDX_init_snoc (cs : list ProviderCall) (c : ProviderCall) :
  count_HyperDX_init (cs ++ [ c ]) =
    (count_HyperDX_init cs + count_HyperDX_init [ c ])%nat.
Proof.
  induction cs as [| x cs IH]; [reflexivity |].
  simpl app. destruct x; simpl in *; rewrite IH; reflexivity.
Qed.

Lemma count_Pino_transport_snoc (cs : list ProviderCall) (c : ProviderCall) :
  count_Pino_transport (cs ++ [ c ]) =
    (count_Pino_transport cs + count_Pino_transport [ c ])%nat.
Proof.
  induction cs as [| x cs IH]; [reflexivity |].
  simpl app. destruct x; simpl in *; rewrite IH; reflexivity.
Qed.

Lemma count_initialized_snoc (ls : list AppLoggerObj) (o : AppLoggerObj) :
  count_initialized (ls ++ [ o ]) =
    (count_initialized ls + (if isInitialized o then 1 else 0))%nat.
Proof.
  induction ls as [| x ls IH]; simpl; [lia |]. rewrite IH. lia.
Qed.

Lemma count_initialized_insert (ls : list AppLoggerObj) :
  forall (i : nat) (o o' : AppLoggerObj),
    ls !! i = Some o -> isInitialized o = false -> isInitialized o' = true ->
    count_initialized (<[i := o']> ls) = S (count_initialized ls).
Proof.
  induction ls as [| x ls IH]; intros i o o' Hl Ho Ho'; [discriminate |].
  destruct i as [| i]; simpl in *.
  - injection Hl as ->. rewrite Ho, Ho'. reflexivity.
  - rewrite (IH i o o' Hl Ho Ho'). lia.
Qed.

Lemma count_initialized_le (ls : list AppLoggerObj) :
  (count_initialized ls <= length ls)%nat.
Proof.
  induction ls as [| x ls IH]; simpl; [lia |]. destruct (isInitialized x); lia.
Qed.

Lemma initialize_length (this : nat) (w : World) :
  length (loggers (snd (AppLogger.initialize this w))) = length (loggers w).
Proof.
  rewrite initialize_run.
  destruct (loggers w !! this) as [o |]; [| reflexivity].
  destruct (isInitialized o); [reflexivity |].
  destruct (configured w); [| reflexivity].
  simpl. apply length_insert.
Qed.

Lemma initialize_keeps_initialized (this : nat) (w : World) (l : nat)
    (o : AppLoggerObj) :
  loggers w !! l = Some o -> isInitialized o = true ->
  loggers (snd (AppLogger.initialize this w)) !! l = Some o.
Proof.
  intros Hl Hi. rewrite initialize_run.
  destruct (loggers w !! this) as [o' |] eqn:Hthis; [| exact Hl].
  destruct (isInitialized o') eqn:Hi'; [exact Hl |].
  destruct (configured w); [| exact Hl].
  simpl. rewrite list_lookup_insert_ne; [exact Hl |].
  intros ->. congruence.
Qed.

Lemma initialize_counts (this : nat) (w : World) :
  count_HyperDX_init (calls w) = count_initialized (loggers w) /\
  count_Pino_transport (calls w) = count_initialized (loggers w) ->
  let w' := snd (AppLogger.initialize this w) in
  count_HyperDX_init (calls w') = count_initialized (loggers w') /\
  count_Pino_transport (calls w') = count_initialized (loggers w').
Proof.
  intros [Hi Ht]. rewrite initialize_run.
  destruct (loggers w !! this) as [o |] eqn:Hthis; [| split; assumption].
  destruct (isInitialized o) eqn:Ho; [split; assumption |].
  destruct (configured w); [| split; assumption].
  simpl.
  erewrite (count_initialized_insert (loggers w) this o); [| exact Hthis | exact Ho | reflexivity].
  rewrite !count_HyperDX_init_snoc, !count_Pino_transport_snoc. simpl. lia.
Qed.

Lemma run_op_keeps_initialized (op : Op) (w : World) (l : nat) (o : AppLoggerObj) :
  loggers w !! l = Some o -> isInitialized o = true ->
  loggers (run_op op w) !! l = Some o.
Proof.
  intros Hl Hi. destruct op; simpl.
  - rewrite getLogger_world. destruct (globalLogger w); [exact Hl |].
    apply initialize_keeps_initialized; [| exact Hi].
    simpl. apply lookup_app_l_Some. exact Hl.
  - apply lookup_app_l_Some. exact Hl.
  - apply initialize_keeps_initialized; assumption.
  - destruct (createLog_frame this level message opts w) as [-> _]. exact Hl.
  - exact Hl.
  - exact Hl.
Qed.

Lemma run_op_counts (op : Op) (w : World) :
  count_HyperDX_init (calls w) = count_initialized (loggers w) /\
  count_Pino_transport (calls w) = count_initialized (loggers w) ->
  count_HyperDX_init (calls (run_op op w)) = count_initialized (loggers (run_op op w)) /\
  count_Pino_transport (calls (run_op op w)) = count_initialized (loggers (run_op op w)).
Proof.
  intros H. destruct op; simpl.
  - rewrite getLogger_world. destruct (globalLogger w); [exact H |].
    apply initialize_counts. simpl. rewrite count_initialized_snoc. simpl.
    rewrite Nat.add_0_r. exact H.
  - rewrite count_initialized_snoc. simpl. rewrite Nat.add_0_r. exact H.
  - apply initialize_counts, H.
  - destruct (createLog_frame this level message opts w) as (-> & _ & -> & ->).
    exact H.
  - exact H.
  - exact H.
Qed.

Lemma run_ops_invariant (P : World -> Prop) (Q : Op -> Prop) :
  (forall op w, Q op -> P w -> P (run_op op w)) ->
  forall ops w, Forall Q ops -> P w -> P (run_ops ops w).
Proof.
  intros Hstep ops. induction ops as [| op ops IH]; intros w Hall Hw; [exact Hw |].
  inversion Hall as [| ? ? Hop Hrest]; subst.
  simpl. apply IH; [exact Hrest |]. apply Hstep; assumption.
Qed.

Lemma reachable_run_ops (ops : list Op) (w : World) :
  reachable w -> reachable (run_ops ops w).
Proof.
  intros Hr.
  apply (run_ops_invariant reachable (fun _ => True)); [| | exact Hr].
  - intros op w' _ Hw'. apply reachable_step, Hw'.
  - apply Forall_forall. intros; exact I.
Qed.

Lemma reachable_counts (w : World) :
  reachable w ->
  count_HyperDX_init (calls w) = count_initialized (loggers w) /\
  count_Pino_transport (calls w) = count_initialized (loggers w).
Proof.
  induction 1 as [e | op w _ IH]; [split; reflexivity |].
  apply run_op_counts, IH.
Qed.

End Frames.

(** X9.  Once a logger is initialized, no later operation changes it: after
    any sequence of [getLogger], [new AppLogger()], [initialize], log calls,
    environment edits and context changes, the instance still has the pino
    logger and the sinks of its first initialization.  In particular,
    credentials changed afterwards never reach an existing logger. *)
Theorem initialized_logger_is_stable (ops : list Op) (w : World) (l : nat)
    (o : AppLoggerObj)
    (Hthis : loggers w !! l = Some o)
    (Hinit : isInitialized o = true) :
  loggers (run_ops ops w) !! l = Some o.
Proof.
  revert w Hthis. induction ops as [| op ops IH]; intros w Hthis; [exact Hthis |].
  simpl. apply IH. apply run_op_keeps_initialized; assumption.
Qed.

Lemma initialized_logger_is_stable_witness :
  loggers (run_ops [ OpSetEnv {| HYPERDX_API_KEY := Some "other";
                                 HYPERDX_SERVICE := Some "other" |};
                     OpInitialize 0; OpGetLogger; OpNew; OpInitialize 1 ]
             loaded_world) !! 0%nat =
    Some (initialized_with [ pretty_target;
                             hyperdx_target (Some "key") (Some "hono-hyperdx-poc") ]).
Proof.
  apply (initialized_logger_is_stable _ loaded_world 0).
  - reflexivity.
  - reflexivity.
Defined.

(** X12.  In every reachable state, [HyperDX.init] and [pino.transport] have
    each been called exactly once per initialized [AppLogger] instance:
    failed initializations and repeated [initialize] calls register
    nothing. *)
Theorem providers_called_once_per_initialized_logger (w : World)
    (Hreach : reachable w) :
  count_HyperDX_init (calls w) = count_initialized (loggers w) /\
  count_Pino_transport (calls w) = count_initialized (loggers w).
Proof.
  induction Hreach as [e | op w _ IH].
  - split; reflexivity.
  - apply run_op_counts, IH.
Qed.

Lemma providers_called_once_per_initialized_logger_witness :
  count_HyperDX_init
    (calls (run_ops [ OpInitialize 0; OpNew; OpGetLogger; OpInitialize 1 ] loaded_world)) =
    count_initialized
      (loggers (run_ops [ OpInitialize 0; OpNew; OpGetLogger; OpInitialize 1 ] loaded_world)) /\
  count_Pino_transport
    (calls (run_ops [ OpInitialize 0; OpNew; OpGetLogger; OpInitialize 1 ] loaded_world)) =
    count_initialized
      (loggers (run_ops [ OpInitialize 0; OpNew; OpGetLogger; OpInitialize 1 ] loaded_world)).
Proof.
  apply (providers_called_once_per_initialized_logger
           (run_ops [ OpInitialize 0; OpNew; OpGetLogger; OpInitialize 1 ] loaded_world)).
  apply reachable_run_ops. unfold loaded_world.
  apply reachable_step, reachable_initial.
Defined.

(** X10.  The record of a log call has exactly the top-level keys [data] and
    [tag], plus [trace_id], [span_id] and [trace_flags] when the active span
    has a span context.  Whatever the caller puts in [data] stays under
    [data]: it cannot add or replace a top-level field.  This holds of every
    record written, that is of the calls at info, warn and error; a call at
    debug or trace writes none. *)
Theorem record_has_fixed_keys (w : World) (this : nat) (o : AppLoggerObj)
    (level : Level) (message : string) (opts : option LogOptions)
    (Hreach : reachable w)
    (Hthis : loggers w !! this = Some o)
    (Hinit : isInitialized o = true) :
  if level_enabled level then
    exists sinks r,
      AppLogger.createLog this level message opts w =
        (Normal tt, add_call (Pino_write sinks r) w) /\
      record_keys r =
        match context_active w ≫= spanContext with
        | Some _ => {[ "data"; "tag"; "trace_id"; "span_id"; "trace_flags" ]}
        | None => {[ "data"; "tag" ]}
        end
  else AppLogger.createLog this level message opts w = (Normal tt, w).
Proof.
  destruct (level_enabled level) eqn:Henabled;
    [| exact (createLog_dropped w this o level message opts Hreach Hthis Hinit Henabled)].
  destruct (createLog_emits w this o level message opts Hreach Hthis Hinit Henabled)
    as (pl & extra & _ & _ & Hextra & Hrun).
  eexists _, _. split; [exact Hrun |].
  unfold record_keys, log_object. simpl.
  destruct (context_active w) as [sp |]; simpl.
  - destruct (spanContext sp) as [sc |] eqn:Hsc.
    + rewrite (mixin_active sp sc Hsc) in Hextra. injection Hextra as <-.
      rewrite dom_union_L, !dom_insert_L, !dom_singleton_L. set_solver.
    + rewrite (mixin_no_context sp Hsc) in Hextra. injection Hextra as <-.
      rewrite dom_union_L, !dom_insert_L, !dom_singleton_L, dom_empty_L. set_solver.
  - rewrite mixin_no_span in Hextra. injection Hextra as <-.
    rewrite dom_union_L, !dom_insert_L, !dom_singleton_L, dom_empty_L. set_solver.
Qed.

Lemma record_has_fixed_keys_witness :
  exists sinks r,
    AppLogger.createLog 0 LWarn "spoof"
      (Some {| data := Some [ ("trace_id", VStr "forged"); ("level", VStr "fatal") ];
               tag := None |}) loaded_world =
      (Normal tt, add_call (Pino_write sinks r) loaded_world) /\
    record_keys r =
      match context_active loaded_world ≫= spanContext with
      | Some _ => {[ "data"; "tag"; "trace_id"; "span_id"; "trace_flags" ]}
      | None => {[ "data"; "tag" ]}
      end.
Proof.
  refine (record_has_fixed_keys loaded_world 0
            (initialized_with [ pretty_target;
                                hyperdx_target (Some "key") (Some "hono-hyperdx-poc") ])
            LWarn "spoof"
            (Some {| data := Some [ ("trace_id", VStr "forged"); ("level", VStr "fatal") ];
                     tag := None |}) _ _ _).
  - unfold loaded_world. apply reachable_step, reachable_initial.
  - reflexivity.
  - reflexivity.
Defined.

(** X11.  For every flags value that is a non-negative safe integer (up to
    [2^53 - 1], so every byte and far beyond), the contributed [trace_flags]
    reads back as that value when parsed as a hexadecimal numeral; absent
    flags read back as [0].  So the added zero never changes the value, and
    different flags give different fields. *)
Theorem trace_flags_reads_back (sp : Span) (sc : SpanContext)
    (Hsc : spanContext sp = Some sc)
    (Hsafe : 0 <= nullish_or (traceFlags sc) 0 <= MAX_SAFE_INTEGER) :
  exists s : string,
    contributed (Some sp) "trace_flags" = Some (VStr s) /\
    parse_hex s = Some (nullish_or (traceFlags sc) 0).
Proof.
  eexists. split; [apply (contributed_trace_flags sp sc Hsc) |].
  destruct (Number_toString16_numeral _ Hsafe) as (_ & Hparse & _).
  rewrite string_app_cons. unfold parse_hex in *. simpl.
  destruct (Number_toString16 (nullish_or (traceFlags sc) 0)) eqn:Hs;
    [discriminate | exact Hparse].
Qed.

Lemma trace_flags_reads_back_witness :
  exists s : string,
    contributed (Some (span_with_flags "GET /" "20d03309" "1fba4d5d" (Some 4660)))
      "trace_flags" = Some (VStr s) /\
    parse_hex s = Some (nullish_or (Some 4660) 0).
Proof.
  apply (trace_flags_reads_back
           (span_with_flags "GET /" "20d03309" "1fba4d5d" (Some 4660))
           {| traceId := "20d03309"; spanId := "1fba4d5d"; traceFlags := Some 4660 |}).
  - reflexivity.
  - simpl. unfold MAX_SAFE_INTEGER. lia.
Defined.

(** ** The module-level singleton *)

Section Singleton.

Lemma run_op_globalLogger_valid (op : Op) (w : World) :
  (forall l, globalLogger w = Some l -> (l < length (loggers w))%nat) ->
  forall l, globalLogger (run_op op w) = Some l ->
            (l < length (loggers (run_op op w)))%nat.
Proof.
  intros Hv l. destruct op; simpl.
  - rewrite getLogger_world. destruct (globalLogger w) as [g |] eqn:Hg.
    + rewrite Hg. intros [= <-]. apply Hv. reflexivity.
    + rewrite initialize_globalLogger, initialize_length. simpl.
      intros [= <-]. rewrite length_app. simpl. lia.
  - rewrite length_app. intros Hl. specialize (Hv l Hl). lia.
  - rewrite initialize_globalLogger, initialize_length. apply Hv.
  - destruct (createLog_frame this level message opts w) as (-> & -> & _).
    apply Hv.
  - apply Hv.
  - apply Hv.
Qed.

(** With [getLogger] as the only way to a logger, the heap holds nothing
    before the first call and the one global instance after it. *)
Lemma run_op_single_instance (op : Op) (w : World) :
  through_getLogger op = true ->
  (globalLogger w = None /\ loggers w = []) \/
  (globalLogger w = Some 0%nat /\ length (loggers w) = 1%nat) ->
  (globalLogger (run_op op w) = None /\ loggers (run_op op w) = []) \/
  (globalLogger (run_op op w) = Some 0%nat /\ length (loggers (run_op op w)) = 1%nat).
Proof.
  intros Hop Hw. destruct op; simpl in *; try discriminate; try exact Hw.
  - rewrite getLogger_world.
    destruct Hw as [[Hg Hl] | [Hg Hl]]; rewrite Hg.
    + right. rewrite initialize_globalLogger, initialize_length. simpl.
      rewrite Hl. split; reflexivity.
    + right. split; assumption.
  - destruct (createLog_frame this level message opts w) as (-> & -> & _).
    exact Hw.
Qed.

End Singleton.

(** X13.  In every reachable state the module variable [globalLogger] is
    either unset or refers to an existing [AppLogger] instance. *)
Theorem globalLogger_refers_to_an_instance (w : World) (l : nat)
    (Hreach : reachable w)
    (Hglobal : globalLogger w = Some l) :
  is_Some (loggers w !! l).
Proof.
  apply lookup_lt_is_Some. revert l Hglobal.
  induction Hreach as [e | op w _ IH]; [discriminate |].
  apply run_op_globalLogger_valid, IH.
Qed.

Lemma globalLogger_refers_to_an_instance_witness :
  is_Some (loggers loaded_world !! 0%nat).
Proof.
  apply (globalLogger_refers_to_an_instance loaded_world 0).
  - unfold loaded_world. apply reachable_step, reachable_initial.
  - reflexivity.
Defined.

(** X14.  A program that reaches the logger through [getLogger] only (it
    never runs [new AppLogger()] or [initialize] itself) has at most one
    [AppLogger] instance, and [HyperDX.init] and [pino.transport] are each
    called at most once, however often [getLogger] and the log methods are
    called and however the environment and the context change. *)
Theorem getLogger_gives_a_singleton (ops : list Op) (e : Env)
    (Honly : forallb through_getLogger ops = true) :
  (length (loggers (run_ops ops (initial_world e))) <= 1)%nat /\
  (count_HyperDX_init (calls (run_ops ops (initial_world e))) <= 1)%nat /\
  (count_Pino_transport (calls (run_ops ops (initial_world e))) <= 1)%nat.
Proof.
  assert (Hlen : (length (loggers (run_ops ops (initial_world e))) <= 1)%nat).
  { assert (Hinv :
      (globalLogger (run_ops ops (initial_world e)) = None /\
       loggers (run_ops ops (initial_world e)) = []) \/
      (globalLogger (run_ops ops (initial_world e)) = Some 0%nat /\
       length (loggers (run_ops ops (initial_world e))) = 1%nat)).
    { apply (run_ops_invariant
               (fun w => (globalLogger w = None /\ loggers w = []) \/
                         (globalLogger w = Some 0%nat /\ length (loggers w) = 1%nat))
               (fun op => through_getLogger op = true)).
      - apply run_op_single_instance.
      - apply Forall_forall. intros op Hin.
        rewrite forallb_forall in Honly. apply Honly.
        apply list_elem_of_In. exact Hin.
      - left. split; reflexivity. }
    destruct Hinv as [[_ ->] | [_ ->]]; simpl; lia. }
  destruct (reachable_counts (run_ops ops (initial_world e))) as [Hi Ht].
  { apply reachable_run_ops, reachable_initial. }
  pose proof (count_initialized_le (loggers (run_ops ops (initial_world e)))).
  split; [exact Hlen | split; lia].
Qed.

Lemma getLogger_gives_a_singleton_witness :
  (length (loggers (run_ops [ OpGetLogger; OpCreateLog 0 LInfo "a" None;
                              OpSetEnv {| HYPERDX_API_KEY := None;
                                          HYPERDX_SERVICE := None |};
                              OpGetLogger; OpGetLogger ]
                      (initial_world sample_env))) <= 1)%nat /\
  (count_HyperDX_init
     (calls (run_ops [ OpGetLogger; OpCreateLog 0 LInfo "a" None;
                       OpSetEnv {| HYPERDX_API_KEY := None;
                                   HYPERDX_SERVICE := None |};
                       OpGetLogger; OpGetLogger ]
               (initial_world sample_env))) <= 1)%nat /\
  (count_Pino_transport
     (calls (run_ops [ OpGetLogger; OpCreateLog 0 LInfo "a" None;
                       OpSetEnv {| HYPERDX_API_KEY := None;
                                   HYPERDX_SERVICE := None |};
                       OpGetLogger; OpGetLogger ]
               (initial_world sample_env))) <= 1)%nat.
Proof.
  apply (getLogger_gives_a_singleton
           [ OpGetLogger; OpCreateLog 0 LInfo "a" None;
             OpSetEnv {| HYPERDX_API_KEY := None; HYPERDX_SERVICE := None |};
             OpGetLogger; OpGetLogger ]
           sample_env).
  reflexivity.
Defined.
